(** * Hinted handoff: the per-node processor (hh/node_processor.go) and the
      metadata store lookup (meta/store.go), embedded in Rocq.

    Integers of Go are [Z] with their wrap-around written out, byte slices are
    lists of 8-bit [Z], a Go [error] result is an [option error] ([None] is
    nil).  The collaborators the processor only knows through an interface or
    through a type of another file (point codec, queue, metadata client,
    shard writer) are interfaces here as well. *)

From Stdlib Require Import ZArith List String Bool Lia.
Import ListNotations.
Open Scope Z_scope.

(** ** Bytes and encoding/binary.BigEndian *)

Definition byte := Z.
Definition bytes := list byte.

(** [len(b)] *)
Definition len {A : Type} (l : list A) : Z := Z.of_nat (List.length l).

(** The Go conversion [byte(x)] of an unsigned integer. *)
Definition byte_of (x : Z) : byte := Z.land x 255.

(** The Go conversion [uint64(x)]. *)
Definition uint64 (x : Z) : Z := x mod 2 ^ 64.

(** What a call does besides returning a value: a runtime panic (index out
    of range, nil dereference) or a wait that nothing can end. *)
Inductive outcome (A : Type) : Type :=
| Ret (a : A)
| Panic
| Block.
Arguments Ret {A} a.
Arguments Panic {A}.
Arguments Block {A}.

Module BigEndian.

(** The eight bytes [byte(v >> 56), ..., byte(v)]. *)
Definition bytes8 (v : Z) : bytes :=
  [ byte_of (Z.shiftr v 56); byte_of (Z.shiftr v 48);
    byte_of (Z.shiftr v 40); byte_of (Z.shiftr v 32);
    byte_of (Z.shiftr v 24); byte_of (Z.shiftr v 16);
    byte_of (Z.shiftr v 8);  byte_of v ].

(** [binary.BigEndian.PutUint64(b, v)]: writes [b[0..7]]; panics on a slice
    shorter than 8. *)
Definition PutUint64 (b : bytes) (v : Z) : outcome bytes :=
  if len b <? 8 then Panic else Ret (bytes8 v ++ skipn 8 b).

(** [binary.BigEndian.Uint64(b)]: reads [b[0..7]]; panics on a slice shorter
    than 8. *)
Definition Uint64 (b : bytes) : outcome Z :=
  match b with
  | b0 :: b1 :: b2 :: b3 :: b4 :: b5 :: b6 :: b7 :: _ =>
      Ret (Z.lor (uint64 b7)
          (Z.lor (uint64 (Z.shiftl b6 8))
          (Z.lor (uint64 (Z.shiftl b5 16))
          (Z.lor (uint64 (Z.shiftl b4 24))
          (Z.lor (uint64 (Z.shiftl b3 32))
          (Z.lor (uint64 (Z.shiftl b2 40))
          (Z.lor (uint64 (Z.shiftl b1 48))
                 (uint64 (Z.shiftl b0 56)))))))))
  | _ => Panic
  end.

End BigEndian.

(** [b[:k]] and [b[k:]] of a slice whose capacity is its length; both panic
    when [k] is beyond it. *)
Definition slice_to (b : bytes) (k : nat) : outcome bytes :=
  if (List.length b <? k)%nat then Panic else Ret (firstn k b).

Definition slice_from (b : bytes) (k : nat) : outcome bytes :=
  if (List.length b <? k)%nat then Panic else Ret (skipn k b).

(** [make([]byte, k)] *)
Definition make (k : nat) : bytes := repeat 0 k.

(** ** Errors

    The sentinels the processor compares against with [==], and the values
    built on the spot by [fmt.Errorf]. *)
Inductive error : Type :=
| EOF                              (* io.EOF *)
| ErrNodeNotFound                  (* meta.ErrNodeNotFound *)
| ErrNotOpen                       (* hh.ErrNotOpen *)
| Errorf (msg : string)            (* fmt.Errorf with a constant text, or an error of a collaborator *)
| ErrTooShort (n : Z)              (* fmt.Errorf("too short: len = %d", len(b)) *)
| ErrMkdirAll (cause : error).     (* fmt.Errorf("mkdir all: %s", err) *)

Definition is_EOF (e : error) : bool :=
  match e with EOF => true | _ => false end.

Definition is_ErrNodeNotFound (e : error) : bool :=
  match e with ErrNodeNotFound => true | _ => false end.

Definition is_ErrNotOpen (e : error) : bool :=
  match e with ErrNotOpen => true | _ => false end.

(** ** int64 counters and sync/atomic *)

Definition int64 (x : Z) : Z := (x + 2 ^ 63) mod 2 ^ 64 - 2 ^ 63.

Definition AddInt64 (addr delta : Z) : Z := int64 (addr + delta).

(** ** The point codec (package models, an external collaborator) *)

Class PointCodec : Type := {
  Point : Type;
  (** [p.MarshalBinary()] *)
  MarshalBinary : Point -> bytes * option error;
  (** [models.ParsePoints(buf)] *)
  ParsePoints : bytes -> list Point * option error
}.

Section Framing.
Context {codec : PointCodec}.

(** The loop of marshalWrite over [points], [totalPB] being the accumulator. *)
Fixpoint marshalPoints (points : list Point) (totalPB : bytes) : bytes :=
  match points with
  | [] => totalPB
  | p :: points =>
      match MarshalBinary p with
      | (_, Some _) => marshalPoints points totalPB
      | (pB, None) => marshalPoints points ((totalPB ++ pB) ++ [10])
      end
  end.

Definition marshalWrite (shardID : Z) (points : list Point) : outcome bytes :=
  let b := make 8 in
  let totalPB := [] in
  match BigEndian.PutUint64 b shardID with
  | Ret b => Ret (b ++ marshalPoints points totalPB)
  | Panic => Panic
  | Block => Block
  end.

Definition unmarshalWrite (b : bytes)
  : outcome (Z * list Point * option error) :=
  if len b <? 8 then Ret (0, [], Some (ErrTooShort (len b)))
  else
    match slice_to b 8 with
    | Ret hd =>
        match BigEndian.Uint64 hd with
        | Ret shardID =>
            match slice_from b 8 with
            | Ret tl =>
                let '(points, err) := ParsePoints tl in
                Ret (shardID, points, err)
            | _ => Panic
            end
        | _ => Panic
        end
    | _ => Panic
    end.

(** [p.MarshalBinary()] returns no error. *)
Definition encodes (p : Point) : bool :=
  match MarshalBinary p with (_, None) => true | (_, Some _) => false end.

(** The payload after the shard ID as the design words it: the encodings of
    the points that encode, each followed by a newline byte. *)
Definition framed (points : list Point) : bytes :=
  flat_map (fun p => fst (MarshalBinary p) ++ [10]) (filter encodes points).

End Framing.


(** ** meta/store.go: the data nodes of the cluster *)

Module influxmeta.
(** [meta.NodeInfo] of influxdb/services/meta, the element type of
    [Data.DataNodes]. *)
Record NodeInfo : Type := { ID : Z; Host : string; TCPHost : string }.
End influxmeta.

(** The [NodeInfo] of this repository's package meta; [store.dataNode] fills
    these three fields. *)
Record NodeInfo : Type := { ID : Z; TCPHost : string; Host : string }.

(** The part of [store] that [dataNode] reads: [s.data.DataNodes]. *)
Record store : Type := { DataNodes : list influxmeta.NodeInfo }.

(** The range loop of [store.dataNode]. *)
Fixpoint dataNode_loop (nodes : list influxmeta.NodeInfo) (id : Z)
  : option NodeInfo :=
  match nodes with
  | [] => None
  | n :: nodes =>
      if influxmeta.ID n =? id
      then Some {| ID := influxmeta.ID n;
                   TCPHost := influxmeta.TCPHost n;
                   Host := influxmeta.Host n |}
      else dataNode_loop nodes id
  end.

Definition dataNode (s : store) (id : Z) : option NodeInfo :=
  dataNode_loop (DataNodes s) id.

(** ** The collaborators of the processor *)

(** The queue of hinted-handoff blocks ([*queue], declared in another file
    of package hh): the methods the processor calls, each returning the
    queue it leaves behind. *)
Class QueueImpl : Type := {
  queue_t : Type;
  (** [newQueue(dir, maxSize)] *)
  newQueue : string -> Z -> queue_t * option error;
  q_Open : queue_t -> queue_t * option error;
  q_Close : queue_t -> queue_t * option error;
  q_Append : queue_t -> bytes -> queue_t * option error;
  q_Current : queue_t -> queue_t * (bytes * option error);
  q_Advance : queue_t -> queue_t * option error;
  q_PurgeOlderThan : queue_t -> Z -> queue_t * option error;
  q_TotalBytes : queue_t -> Z;
  q_totalSegments : queue_t -> Z;
  q_Empty : queue_t -> bool
}.

(** The interface [metaClient]: [DataNode(id) (ni *meta.NodeInfo, err error)]. *)
Class MetaClient : Type := {
  metaClient : Type;
  DataNode : metaClient -> Z -> metaClient * (option NodeInfo * option error)
}.

(** The interface [shardWriter]:
    [WriteShard(shardID, ownerID uint64, points []models.Point) error]. *)
Class ShardWriter {codec : PointCodec} : Type := {
  shardWriter : Type;
  sw_WriteShard : shardWriter -> Z -> Z -> list Point -> shardWriter * option error
}.

(** ** The os package: a file tree as the list of its paths *)

Inductive fkind : Type := Dir | File.

Definition FS := list (string * fkind).

Fixpoint fs_lookup (fs : FS) (path : string) : option fkind :=
  match fs with
  | [] => None
  | (p, k) :: fs => if String.eqb p path then Some k else fs_lookup fs path
  end.

(** [path] is [root] or lies below it. *)
Definition under (root path : string) : bool :=
  String.eqb path root || String.prefix (root ++ "/") path.

(** [os.MkdirAll(path, 0700)]: nothing to do on a directory, an error on a
    file of that name, the new directory otherwise. *)
Definition MkdirAll (fs : FS) (path : string) : FS * option error :=
  match fs_lookup fs path with
  | Some Dir => (fs, None)
  | Some File => (fs, Some (Errorf "not a directory"))
  | None => ((path, Dir) :: fs, None)
  end.

(** [os.RemoveAll(path)]: removes [path] and everything below it; a path
    that does not exist is no error. *)
Definition RemoveAll (fs : FS) (path : string) : FS * option error :=
  (filter (fun e => negb (under path (fst e))) fs, None).

(** ** hh/node_processor.go *)

(** The fields of [Config] the processor reads; durations are nanoseconds. *)
Record Config : Type := {
  MaxSize : Z;
  MaxAge : Z;
  RetryRateLimit : Z;
  RetryInterval : Z;
  RetryMaxInterval : Z;
  PurgeInterval : Z
}.

(** The interval [d] is one of the two that [c] configures. *)
Definition configured (c : Config) (d : Z) : Prop :=
  d = RetryInterval c \/ d = RetryMaxInterval c.

Record Statistics : Type := {
  WriteShardReq : Z;
  WriteShardReqPoints : Z;
  WriteNodeReqFail : Z;
  WriteNodeReqPoints : Z;
  WriteNodeReq : Z;
  WriteShardConcurrentlyReq : Z;
  WriteShardConcurrentlyFail : Z;
  WriteShardConcurrentlyPoints : Z;
  WriteDiskBytes : Z;
  WriteDiskSegments : Z
}.

(** [&Statistics{}] *)
Definition zeroStatistics : Statistics :=
  {| WriteShardReq := 0; WriteShardReqPoints := 0; WriteNodeReqFail := 0;
     WriteNodeReqPoints := 0; WriteNodeReq := 0;
     WriteShardConcurrentlyReq := 0; WriteShardConcurrentlyFail := 0;
     WriteShardConcurrentlyPoints := 0; WriteDiskBytes := 0;
     WriteDiskSegments := 0 |}.

Definition add_WriteShardReq (d : Z) (s : Statistics) : Statistics :=
  {| WriteShardReq := AddInt64 (WriteShardReq s) d;
     WriteShardReqPoints := WriteShardReqPoints s;
     WriteNodeReqFail := WriteNodeReqFail s;
     WriteNodeReqPoints := WriteNodeReqPoints s;
     WriteNodeReq := WriteNodeReq s;
     WriteShardConcurrentlyReq := WriteShardConcurrentlyReq s;
     WriteShardConcurrentlyFail := WriteShardConcurrentlyFail s;
     WriteShardConcurrentlyPoints := WriteShardConcurrentlyPoints s;
     WriteDiskBytes := WriteDiskBytes s;
     WriteDiskSegments := WriteDiskSegments s |}.

Definition add_WriteShardReqPoints (d : Z) (s : Statistics) : Statistics :=
  {| WriteShardReq := WriteShardReq s;
     WriteShardReqPoints := AddInt64 (WriteShardReqPoints s) d;
     WriteNodeReqFail := WriteNodeReqFail s;
     WriteNodeReqPoints := WriteNodeReqPoints s;
     WriteNodeReq := WriteNodeReq s;
     WriteShardConcurrentlyReq := WriteShardConcurrentlyReq s;
     WriteShardConcurrentlyFail := WriteShardConcurrentlyFail s;
     WriteShardConcurrentlyPoints := WriteShardConcurrentlyPoints s;
     WriteDiskBytes := WriteDiskBytes s;
     WriteDiskSegments := WriteDiskSegments s |}.

Definition add_WriteNodeReqFail (d : Z) (s : Statistics) : Statistics :=
  {| WriteShardReq := WriteShardReq s;
     WriteShardReqPoints := WriteShardReqPoints s;
     WriteNodeReqFail := AddInt64 (WriteNodeReqFail s) d;
     WriteNodeReqPoints := WriteNodeReqPoints s;
     WriteNodeReq := WriteNodeReq s;
     WriteShardConcurrentlyReq := WriteShardConcurrentlyReq s;
     WriteShardConcurrentlyFail := WriteShardConcurrentlyFail s;
     WriteShardConcurrentlyPoints := WriteShardConcurrentlyPoints s;
     WriteDiskBytes := WriteDiskBytes s;
     WriteDiskSegments := WriteDiskSegments s |}.

Definition add_WriteNodeReqPoints (d : Z) (s : Statistics) : Statistics :=
  {| WriteShardReq := WriteShardReq s;
     WriteShardReqPoints := WriteShardReqPoints s;
     WriteNodeReqFail := WriteNodeReqFail s;
     WriteNodeReqPoints := AddInt64 (WriteNodeReqPoints s) d;
     WriteNodeReq := WriteNodeReq s;
     WriteShardConcurrentlyReq := WriteShardConcurrentlyReq s;
     WriteShardConcurrentlyFail := WriteShardConcurrentlyFail s;
     WriteShardConcurrentlyPoints := WriteShardConcurrentlyPoints s;
     WriteDiskBytes := WriteDiskBytes s;
     WriteDiskSegments := WriteDiskSegments s |}.

Definition add_WriteNodeReq (d : Z) (s : Statistics) : Statistics :=
  {| WriteShardReq := WriteShardReq s;
     WriteShardReqPoints := WriteShardReqPoints s;
     WriteNodeReqFail := WriteNodeReqFail s;
     WriteNodeReqPoints := WriteNodeReqPoints s;
     WriteNodeReq := AddInt64 (WriteNodeReq s) d;
     WriteShardConcurrentlyReq := WriteShardConcurrentlyReq s;
     WriteShardConcurrentlyFail := WriteShardConcurrentlyFail s;
     WriteShardConcurrentlyPoints := WriteShardConcurrentlyPoints s;
     WriteDiskBytes := WriteDiskBytes s;
     WriteDiskSegments := WriteDiskSegments s |}.

(** [atomic.StoreInt64(&n.stats.WriteDiskBytes, v)] *)
Definition store_WriteDiskBytes (v : Z) (s : Statistics) : Statistics :=
  {| WriteShardReq := WriteShardReq s;
     WriteShardReqPoints := WriteShardReqPoints s;
     WriteNodeReqFail := WriteNodeReqFail s;
     WriteNodeReqPoints := WriteNodeReqPoints s;
     WriteNodeReq := WriteNodeReq s;
     WriteShardConcurrentlyReq := WriteShardConcurrentlyReq s;
     WriteShardConcurrentlyFail := WriteShardConcurrentlyFail s;
     WriteShardConcurrentlyPoints := WriteShardConcurrentlyPoints s;
     WriteDiskBytes := v;
     WriteDiskSegments := WriteDiskSegments s |}.

(** [atomic.StoreInt64(&n.stats.WriteDiskSegments, v)] *)
Definition store_WriteDiskSegments (v : Z) (s : Statistics) : Statistics :=
  {| WriteShardReq := WriteShardReq s;
     WriteShardReqPoints := WriteShardReqPoints s;
     WriteNodeReqFail := WriteNodeReqFail s;
     WriteNodeReqPoints := WriteNodeReqPoints s;
     WriteNodeReq := WriteNodeReq s;
     WriteShardConcurrentlyReq := WriteShardConcurrentlyReq s;
     WriteShardConcurrentlyFail := WriteShardConcurrentlyFail s;
     WriteShardConcurrentlyPoints := WriteShardConcurrentlyPoints s;
     WriteDiskBytes := WriteDiskBytes s;
     WriteDiskSegments := v |}.

(** What the processor asks of the world around it, in the order asked. *)
Inductive call {codec : PointCodec} : Type :=
| CallDataNode (id : Z)
| CallCurrent
| CallAdvance
| CallAppend (b : bytes)
| CallQueueClose
| CallPurgeOlderThan (cutoff : Z)
| CallWriteShard (shardID ownerID : Z) (points : list Point)
| CallNewTicker (d : Z)            (* time.NewTicker(d) of the retry ticker *)
| CallLimiterUpdate (c : Z).       (* limiter.Update(c), then the sleep *)

Section Processor.
Context {codec : PointCodec} {qi : QueueImpl} {mc : MetaClient}
        {sw : ShardWriter}.

(** The struct, followed by the three things outside it that its methods
    touch: the file tree, the calls made so far, and the identity the next
    [make(chan struct{})] returns.  [n.queue] is nil until Open has set it;
    a queue method called through the nil pointer is a panic. *)
Record NodeProcessor : Type := {
  cfg : Config;
  nodeID : Z;
  dir : string;
  done : option nat;                    (* nil, or the channel *)
  wg : Z;                               (* the WaitGroup counter *)
  queue : option queue_t;               (* nil, or the queue *)
  meta : metaClient;
  writer : shardWriter;
  stats : Statistics;
  Logger : list (string * error);       (* lines printed: format, error *)
  fs : FS;
  calls : list call;
  nextChan : nat
}.

(** [NewNodeProcessor(nodeID, dir, w, m, cfg)], in a world [fs0]. *)
Definition NewNodeProcessor (nodeID : Z) (dir : string) (w : shardWriter)
    (m : metaClient) (cfg : Config) (fs0 : FS) : NodeProcessor :=
  {| cfg := cfg; nodeID := nodeID; dir := dir; done := None; wg := 0;
     queue := None; meta := m; writer := w; stats := zeroStatistics;
     Logger := []; fs := fs0; calls := []; nextChan := 0%nat |}.

Definition set_done (v : option nat) (n : NodeProcessor) : NodeProcessor :=
  {| cfg := cfg n; nodeID := nodeID n; dir := dir n; done := v; wg := wg n;
     queue := queue n; meta := meta n; writer := writer n; stats := stats n;
     Logger := Logger n; fs := fs n; calls := calls n;
     nextChan := nextChan n |}.

Definition set_wg (v : Z) (n : NodeProcessor) : NodeProcessor :=
  {| cfg := cfg n; nodeID := nodeID n; dir := dir n; done := done n; wg := v;
     queue := queue n; meta := meta n; writer := writer n; stats := stats n;
     Logger := Logger n; fs := fs n; calls := calls n;
     nextChan := nextChan n |}.

Definition set_queue (v : option queue_t) (n : NodeProcessor)
  : NodeProcessor :=
  {| cfg := cfg n; nodeID := nodeID n; dir := dir n; done := done n;
     wg := wg n; queue := v; meta := meta n; writer := writer n;
     stats := stats n; Logger := Logger n; fs := fs n; calls := calls n;
     nextChan := nextChan n |}.

Definition set_meta (v : metaClient) (n : NodeProcessor) : NodeProcessor :=
  {| cfg := cfg n; nodeID := nodeID n; dir := dir n; done := done n;
     wg := wg n; queue := queue n; meta := v; writer := writer n;
     stats := stats n; Logger := Logger n; fs := fs n; calls := calls n;
     nextChan := nextChan n |}.

Definition set_writer (v : shardWriter) (n : NodeProcessor) : NodeProcessor :=
  {| cfg := cfg n; nodeID := nodeID n; dir := dir n; done := done n;
     wg := wg n; queue := queue n; meta := meta n; writer := v;
     stats := stats n; Logger := Logger n; fs := fs n; calls := calls n;
     nextChan := nextChan n |}.

Definition set_stats (v : Statistics) (n : NodeProcessor) : NodeProcessor :=
  {| cfg := cfg n; nodeID := nodeID n; dir := dir n; done := done n;
     wg := wg n; queue := queue n; meta := meta n; writer := writer n;
     stats := v; Logger := Logger n; fs := fs n; calls := calls n;
     nextChan := nextChan n |}.

Definition set_fs (v : FS) (n : NodeProcessor) : NodeProcessor :=
  {| cfg := cfg n; nodeID := nodeID n; dir := dir n; done := done n;
     wg := wg n; queue := queue n; meta := meta n; writer := writer n;
     stats := stats n; Logger := Logger n; fs := v; calls := calls n;
     nextChan := nextChan n |}.

Definition set_nextChan (v : nat) (n : NodeProcessor) : NodeProcessor :=
  {| cfg := cfg n; nodeID := nodeID n; dir := dir n; done := done n;
     wg := wg n; queue := queue n; meta := meta n; writer := writer n;
     stats := stats n; Logger := Logger n; fs := fs n; calls := calls n;
     nextChan := v |}.

(** [n.Logger.Printf(format, ..., err)] *)
Definition Printf (format : string) (err : error) (n : NodeProcessor)
  : NodeProcessor :=
  {| cfg := cfg n; nodeID := nodeID n; dir := dir n; done := done n;
     wg := wg n; queue := queue n; meta := meta n; writer := writer n;
     stats := stats n; Logger := Logger n ++ [(format, err)]; fs := fs n;
     calls := calls n; nextChan := nextChan n |}.

Definition record (c : call) (n : NodeProcessor) : NodeProcessor :=
  {| cfg := cfg n; nodeID := nodeID n; dir := dir n; done := done n;
     wg := wg n; queue := queue n; meta := meta n; writer := writer n;
     stats := stats n; Logger := Logger n; fs := fs n;
     calls := calls n ++ [c]; nextChan := nextChan n |}.

Definition Open (n : NodeProcessor) : option error * NodeProcessor :=
  match done n with
  | Some _ => (None, n)
  | None =>
      let n := set_nextChan (S (nextChan n)) (set_done (Some (nextChan n)) n) in
      match MkdirAll (fs n) (dir n) with
      | (fs', Some err) => (Some (ErrMkdirAll err), set_fs fs' n)
      | (fs', None) =>
          let n := set_fs fs' n in
          match newQueue (dir n) (MaxSize (cfg n)) with
          | (_, Some err) => (Some err, n)
          | (q, None) =>
              match q_Open q with
              | (_, Some err) => (Some err, n)
              | (q, None) =>
                  let n := set_stats
                             (store_WriteDiskBytes (q_TotalBytes q) (stats n))
                             n in
                  let n := set_wg (wg n + 1) n in      (* go n.run() *)
                  (None, set_queue (Some q) n)
              end
          end
      end
  end.

(** [close(n.done)] makes the worker return, [n.wg.Wait()] waits for it. *)
Definition Close (n : NodeProcessor)
  : outcome (option error) * NodeProcessor :=
  match done n with
  | None => (Ret None, n)
  | Some _ =>
      let n := set_wg 0 n in
      let n := set_done None n in
      match queue n with
      | None => (Panic, n)
      | Some q =>
          let '(q, err) := q_Close q in
          (Ret err, record CallQueueClose (set_queue (Some q) n))
      end
  end.

(** Under the lock no closed channel is ever in [n.done], so the [select]
    takes its default branch. *)
Definition Closed (n : NodeProcessor) : bool :=
  match done n with None => true | Some _ => false end.

Definition Purge (n : NodeProcessor) : option error * NodeProcessor :=
  match done n with
  | Some _ => (Some (Errorf "node processor is open"), n)
  | None =>
      let '(fs', err) := RemoveAll (fs n) (dir n) in
      (err, set_fs fs' n)
  end.

(** The goroutine that refreshes the two disk counters is run where it is
    spawned.  Waiting for [n.done] with the read lock held never ends:
    [Close] needs the write lock before it closes the channel. *)
Definition WriteShard (n : NodeProcessor) (shardID : Z) (points : list Point)
  : outcome (option error) * NodeProcessor :=
  match done n with
  | None => (Ret (Some (Errorf "node processor is closed")), n)
  | Some _ =>
      let n := set_stats (add_WriteShardReq 1 (stats n)) n in
      let n := set_stats (add_WriteShardReqPoints (len points) (stats n)) n in
      match queue n with
      | None => (Panic, n)
      | Some q =>
          let n := set_stats
                     (store_WriteDiskSegments (q_totalSegments q) (stats n))
                     n in
          let n := set_stats
                     (store_WriteDiskBytes (q_TotalBytes q) (stats n)) n in
          match marshalWrite shardID points with
          | Ret b =>
              if len b =? 0 then (Ret None, n)
              else
                let '(q, err) := q_Append q b in
                let n := record (CallAppend b) (set_queue (Some q) n) in
                match err with
                | Some err =>
                    if is_ErrNotOpen err then (Block, n)
                    else (Ret (Some err), n)
                | None =>
                    (Ret None, set_stats (add_WriteShardReq 1 (stats n)) n)
                end
          | Panic => (Panic, n)
          | Block => (Block, n)
          end
      end
  end.

Definition Active (n : NodeProcessor)
  : (bool * option error) * NodeProcessor :=
  let '(m, (nio, err)) := DataNode (meta n) (nodeID n) in
  let n := record (CallDataNode (nodeID n)) (set_meta m n) in
  match err with
  | Some err => ((false, Some err), n)
  | None => ((match nio with Some _ => true | None => false end, None), n)
  end.

Definition Empty (n : NodeProcessor) : outcome bool :=
  if Closed n then Ret false
  else match queue n with Some q => Ret (q_Empty q) | None => Panic end.

(** The goroutine of SendWrite up to its send on [ch]: the value sent and
    the processor it leaves. *)
Definition SendWrite_goroutine (n : NodeProcessor) (buf : bytes)
  : outcome (option error) * NodeProcessor :=
  match unmarshalWrite buf with
  | Ret (shardID, points, Some err) =>
      let n := set_stats (add_WriteNodeReqFail 1 (stats n)) n in
      let n := Printf "unmarshal write failed: %v" err n in
      (Ret (Some err), n)
  | Ret (shardID, points, None) =>
      let '(w, err) := sw_WriteShard (writer n) shardID (nodeID n) points in
      let n := record (CallWriteShard shardID (nodeID n) points)
                      (set_writer w n) in
      match err with
      | Some err => (Ret (Some err), n)
      | None =>
          let n := set_stats (add_WriteShardReq 1 (stats n)) n in
          let n := set_stats (add_WriteNodeReq 1 (stats n)) n in
          let n := set_stats
                     (add_WriteNodeReqPoints (len points) (stats n)) n in
          (Ret None, n)
      end
  | Panic => (Panic, n)
  | Block => (Block, n)
  end.

(** SendWrite from the receive on [ch] on: [r] is the value received. *)
Definition SendWrite_receive (n : NodeProcessor) (q : queue_t) (buf : bytes)
    (r : option error) : outcome (Z * option error) * NodeProcessor :=
  let skip :=
    match r with
    | Some r => is_EOF r || is_ErrNodeNotFound r
    | None => false
    end in
  if skip then (Ret (0, r), n)
  else
    let n := match r with
             | Some r => Printf "SendWrite error: %v" r n
             | None => n
             end in
    let '(q, err) := q_Advance q in
    let n := record CallAdvance (set_queue (Some q) n) in
    let n :=
      match err with
      | Some err => Printf "failed to advance queue for node %d: %s" err n
      | None => n
      end in
    (Ret (len buf, None), n).

Definition SendWrite (n : NodeProcessor)
  : outcome (Z * option error) * NodeProcessor :=
  let '((active, err), n) := Active n in
  match err with
  | Some err => (Ret (0, Some err), n)
  | None =>
      if negb active then (Ret (0, Some EOF), n)
      else
        match queue n with
        | None => (Panic, n)
        | Some q =>
            let '(q, (buf, err)) := q_Current q in
            let n := record CallCurrent (set_queue (Some q) n) in
            match err with
            | Some err => (Ret (0, Some err), n)
            | None =>
                match SendWrite_goroutine n buf with
                | (Ret r, n) => SendWrite_receive n q buf r
                | (Panic, n) => (Panic, n)
                | (Block, n) => (Block, n)
                end
            end
        end
  end.

(** How the inner [for] of the retry case ends. *)
Inductive drained : Type :=
| DrainBreak (currInterval : Z)    (* break, with the interval it leaves *)
| DrainReturn                      (* return: the node is gone *)
| DrainCrash                       (* a panic inside SendWrite *)
| DrainMore.                       (* still sending after [fuel] blocks *)

Fixpoint drain (fuel : nat) (currInterval : Z) (n : NodeProcessor)
  : drained * NodeProcessor :=
  match fuel with
  | O => (DrainMore, n)
  | S fuel =>
      match SendWrite n with
      | (Ret (c, Some err), n) =>
          if is_EOF err then (DrainBreak (RetryInterval (cfg n)), n)
          else if is_ErrNodeNotFound err then (DrainReturn, n)
          else
            let currInterval :=
              if currInterval >? RetryMaxInterval (cfg n)
              then RetryMaxInterval (cfg n) else currInterval in
            (DrainBreak currInterval, Printf "error on sending write:%v" err n)
      | (Ret (c, None), n) =>
          let currInterval := RetryInterval (cfg n) in
          drain fuel currInterval (record (CallLimiterUpdate c) n)
      | (_, n) => (DrainCrash, n)
      end
  end.

(** Which case the [select] of the outer loop takes. *)
Inductive tick : Type :=
| TickDone                  (* <-n.done *)
| TickPurge (now : Z)       (* <-purgeTicker.C, with time.Now() *)
| TickRetry.                (* <-retryTicker.C *)

(** Where the worker is after the ticks given to it. *)
Inductive worker : Type :=
| Waiting (currInterval : Z)
| Returned
| Crashed
| Sending.

Fixpoint run_loop (fuel : nat) (ticks : list tick) (currInterval : Z)
    (n : NodeProcessor) : worker * NodeProcessor :=
  match ticks with
  | [] => (Waiting currInterval, n)
  | t :: ticks =>
      if (PurgeInterval (cfg n) <=? 0) || (currInterval <=? 0)
      then (Crashed, n)                 (* time.NewTicker panics *)
      else
      let n := record (CallNewTicker currInterval) n in
      match t with
      | TickDone => (Returned, set_wg (wg n - 1) n)
      | TickPurge now =>
          match queue n with
          | None => (Crashed, n)
          | Some q =>
              let cutoff := now - MaxAge (cfg n) in
              let '(q, err) := q_PurgeOlderThan q cutoff in
              let n := record (CallPurgeOlderThan cutoff)
                              (set_queue (Some q) n) in
              let n := match err with
                       | Some err =>
                           Printf "failed to purge for node %d: %s" err n
                       | None => n
                       end in
              run_loop fuel ticks currInterval n
          end
      | TickRetry =>
          match drain fuel currInterval n with
          | (DrainBreak currInterval, n) => run_loop fuel ticks currInterval n
          | (DrainReturn, n) => (Returned, set_wg (wg n - 1) n)
          | (DrainCrash, n) => (Crashed, n)
          | (DrainMore, n) => (Sending, n)
          end
      end
  end.

Definition run (fuel : nat) (ticks : list tick) (n : NodeProcessor)
  : worker * NodeProcessor :=
  let currInterval := RetryInterval (cfg n) in
  let currInterval :=
    if currInterval >? RetryMaxInterval (cfg n)
    then RetryMaxInterval (cfg n) else currInterval in
  run_loop fuel ticks currInterval n.

(** The intervals of the retry tickers made so far, oldest first. *)
Fixpoint retryDelays (cs : list call) : list Z :=
  match cs with
  | [] => []
  | CallNewTicker d :: cs => d :: retryDelays cs
  | _ :: cs => retryDelays cs
  end.

End Processor.

(** ** Stand-ins for the collaborators, for running the processor *)

Module Stub.

(** A point codec of text lines, for a queue whose blocks hold lines of
    text: a point is its line, a line without bytes does not encode, and a
    line holding a zero byte does not parse.  It parses what it marshals,
    which the codec the program is built with does not ([BinaryStub]
    below). *)
Fixpoint splitLines (b cur : bytes) : list bytes :=
  match b with
  | [] => match cur with [] => [] | _ => [cur] end
  | x :: b => if x =? 10 then cur :: splitLines b [] else splitLines b (cur ++ [x])
  end.

Definition parses (line : bytes) : bool :=
  negb (existsb (fun x => x =? 0) line).

Definition nonempty (line : bytes) : bool :=
  match line with [] => false | _ => true end.

Definition parsePoints (b : bytes) : list bytes * option error :=
  let lines := filter nonempty (splitLines b []) in
  (filter parses lines,
   if forallb parses lines then None else Some (Errorf "unable to parse")).

Definition marshalBinary (p : bytes) : bytes * option error :=
  match p with
  | [] => ([], Some (Errorf "point without fields"))
  | _ => (p, None)
  end.

#[export] Instance lineCodec : PointCodec :=
  {| Point := bytes; MarshalBinary := marshalBinary; ParsePoints := parsePoints |}.

(** A metadata client that answers from a [store], after failing with the
    errors of its script. *)
Record scriptedMeta : Type := { sm_store : store; sm_errs : list error }.

Definition scriptedDataNode (m : scriptedMeta) (id : Z)
  : scriptedMeta * (option NodeInfo * option error) :=
  match sm_errs m with
  | e :: errs => ({| sm_store := sm_store m; sm_errs := errs |}, (None, Some e))
  | [] => (m, (dataNode (sm_store m) id, None))
  end.

#[export] Instance storeClient : MetaClient :=
  {| metaClient := scriptedMeta; DataNode := scriptedDataNode |}.

(** A shard writer that answers with its script, then with success. *)
Definition scriptedWriteShard (w : list (option error)) (shardID ownerID : Z)
    (points : list bytes) : list (option error) * option error :=
  match w with
  | r :: w => (w, r)
  | [] => ([], None)
  end.

#[export] Instance scriptedWriter : ShardWriter :=
  {| shardWriter := list (option error); sw_WriteShard := scriptedWriteShard |}.

End Stub.

Module SpecQueue.

(** Modelled from the spec: the segment of the queue file of package hh,
    which is not among the sources; the records not yet consumed, oldest
    first, and the file's modification time. *)
Record segment : Type := { seg_id : Z; seg_mtime : Z; seg_blocks : list bytes }.

(** Modelled from the spec: the queue of package hh (section 4.2), an ordered
    list of segments, head first and tail last, bounded by [maxSize]. *)
Record t : Type := {
  opened : bool;
  maxSize : Z;
  maxSegmentSize : Z;
  clock : Z;
  segments : list segment
}.

(** Modelled from the spec: the segment size limit (MaxSegmentSize), which
    [newQueue(dir, maxSize)] does not receive; 10 MiB here. *)
Definition defaultSegmentSize : Z := 10 * 1024 * 1024.

(** Modelled from the spec: [size()] of a segment, each record being an
    8-byte length and its payload. *)
Definition seg_size (s : segment) : Z :=
  fold_right (fun b acc => 8 + len b + acc) 0 (seg_blocks s).

(** Modelled from the spec: [totalBytes()], the sum over the segments. *)
Definition totalBytes (q : t) : Z :=
  fold_right (fun s acc => seg_size s + acc) 0 (segments q).

Definition with_segments (segs : list segment) (q : t) : t :=
  {| opened := opened q; maxSize := maxSize q;
     maxSegmentSize := maxSegmentSize q; clock := clock q; segments := segs |}.

Definition with_opened (o : bool) (q : t) : t :=
  {| opened := o; maxSize := maxSize q; maxSegmentSize := maxSegmentSize q;
     clock := clock q; segments := segments q |}.

(** Modelled from the spec: [newQueue(dir, maxSize)], a queue not yet open. *)
Definition new (dir : string) (maxSize : Z) : t * option error :=
  ({| opened := false; maxSize := maxSize; maxSegmentSize := defaultSegmentSize;
      clock := 0; segments := [] |}, None).

(** Modelled from the spec: [open()]; an empty directory gets segment 1. *)
Definition open (q : t) : t * option error :=
  let segs := match segments q with
              | [] => [{| seg_id := 1; seg_mtime := clock q; seg_blocks := [] |}]
              | segs => segs
              end in
  (with_opened true (with_segments segs q), None).

(** Modelled from the spec: [close()]. *)
Definition close (q : t) : t * option error := (with_opened false q, None).

(** Modelled from the spec: step 1 of [append], dropping head segments until
    [need] more bytes fit or no segment remains. *)
Fixpoint dropHead (limit need : Z) (segs : list segment) : list segment :=
  match segs with
  | [] => []
  | s :: rest =>
      if fold_right (fun s acc => seg_size s + acc) 0 segs + need >? limit
      then dropHead limit need rest
      else segs
  end.

(** Modelled from the spec: the ID of the tail segment. *)
Definition tailID (segs : list segment) : Z :=
  match rev segs with [] => 0 | s :: _ => seg_id s end.

(** Modelled from the spec: steps 2 and 3 of [append], rolling the tail over
    when the record does not fit in it and appending to the tail. *)
Fixpoint appendTail (q : t) (lastID : Z) (block : bytes) (segs : list segment)
  : list segment :=
  match segs with
  | [] => [{| seg_id := lastID + 1; seg_mtime := clock q; seg_blocks := [block] |}]
  | [s] =>
      if seg_size s + 8 + len block >? maxSegmentSize q
      then [s; {| seg_id := seg_id s + 1; seg_mtime := clock q;
                  seg_blocks := [block] |}]
      else [{| seg_id := seg_id s; seg_mtime := clock q;
               seg_blocks := seg_blocks s ++ [block] |}]
  | s :: rest => s :: appendTail q lastID block rest
  end.

(** Modelled from the spec: [append(block)]; a block that alone exceeds
    [maxSize] is refused with queue full. *)
Definition append (q : t) (block : bytes) : t * option error :=
  if negb (opened q) then (q, Some ErrNotOpen)
  else if 8 + len block >? maxSize q then (q, Some (Errorf "queue is full"))
  else
    let segs := dropHead (maxSize q) (8 + len block) (segments q) in
    (with_segments (appendTail q (tailID (segments q)) block segs) q, None).

(** Modelled from the spec: [current()]; a drained head is deleted for the
    next segment and the read retried once. *)
Definition current (q : t) : t * (bytes * option error) :=
  if negb (opened q) then (q, ([], Some ErrNotOpen))
  else
    match segments q with
    | [] => (q, ([], Some EOF))
    | s :: rest =>
        match seg_blocks s with
        | b :: _ => (q, (b, None))
        | [] =>
            match rest with
            | [] => (q, ([], Some EOF))
            | s' :: _ =>
                let q := with_segments rest q in
                match seg_blocks s' with
                | b :: _ => (q, (b, None))
                | [] => (q, ([], Some EOF))
                end
            end
        end
    end.

(** Modelled from the spec: [advance()]; a head that becomes empty and is
    not the tail is deleted. *)
Definition advance (q : t) : t * option error :=
  if negb (opened q) then (q, Some ErrNotOpen)
  else
    match segments q with
    | [] => (q, Some EOF)
    | s :: rest =>
        match seg_blocks s with
        | [] => (q, Some EOF)
        | _ :: bs =>
            let s' := {| seg_id := seg_id s; seg_mtime := seg_mtime s;
                         seg_blocks := bs |} in
            match bs, rest with
            | [], _ :: _ => (with_segments rest q, None)
            | _, _ => (with_segments (s' :: rest) q, None)
            end
        end
    end.

(** Modelled from the spec: the segments [purgeOlderThan] keeps, the tail
    always among them. *)
Fixpoint purge (cutoff : Z) (segs : list segment) : list segment :=
  match segs with
  | [] => []
  | [s] => [s]
  | s :: rest =>
      if seg_mtime s <? cutoff then purge cutoff rest else s :: purge cutoff rest
  end.

(** Modelled from the spec: [purgeOlderThan(cutoff)]. *)
Definition purgeOlderThan (q : t) (cutoff : Z) : t * option error :=
  if negb (opened q) then (q, Some ErrNotOpen)
  else (with_segments (purge cutoff (segments q)) q, None).

(** Modelled from the spec: [empty()]. *)
Definition empty (q : t) : bool :=
  forallb (fun s => match seg_blocks s with [] => true | _ => false end)
          (segments q).

(** Modelled from the spec: the queue the processor is run with. *)
#[export] Instance impl : QueueImpl :=
  {| queue_t := t; newQueue := new; q_Open := open; q_Close := close;
     q_Append := append; q_Current := current; q_Advance := advance;
     q_PurgeOlderThan := purgeOlderThan; q_TotalBytes := totalBytes;
     q_totalSegments := fun q => len (segments q); q_Empty := empty |}.

End SpecQueue.

(** ** The scenarios of the design, as processors to run *)

Module Scenario.
Import Stub SpecQueue.
Local Open Scope string_scope.

Definition ms : Z := 1000000.

Definition config : Config :=
  {| MaxSize := 1024 * 1024; MaxAge := 604800000 * ms;
     RetryRateLimit := 0; RetryInterval := 100 * ms;
     RetryMaxInterval := 800 * ms; PurgeInterval := 3600000 * ms |}.

(** A cluster whose data nodes are 1 and 2. *)
Definition cluster : store :=
  {| DataNodes :=
       [ {| influxmeta.ID := 1; influxmeta.Host := "a:8086";
            influxmeta.TCPHost := "a:8088" |};
         {| influxmeta.ID := 2; influxmeta.Host := "b:8086";
            influxmeta.TCPHost := "b:8088" |} ] |}.

Definition tree : FS :=
  [ ("/hh", Dir); ("/hh/1", Dir); ("/hh/1/1", File); ("/hh/10", Dir);
    ("/hh/10/1", File) ].

(** The processor for node [id], writer script [w], metadata errors [errs]. *)
Definition processor (id : Z) (w : list (option error)) (errs : list error)
  : NodeProcessor :=
  NewNodeProcessor id "/hh/1" w {| sm_store := cluster; sm_errs := errs |}
                   config tree.

Definition opened (id : Z) (w : list (option error)) (errs : list error)
  : NodeProcessor :=
  snd (Open (processor id w errs)).

(** Two points, [cpu v=1] and [mem v=2]. *)
Definition p1 : bytes := [99; 112; 117; 32; 118; 61; 49].
Definition p2 : bytes := [109; 101; 109; 32; 118; 61; 50].

(** Scenario 1: the processor of node 1 after [WriteShard(7, {p1, p2})],
    and after the worker's SendWrite. *)
Definition written (w : list (option error)) (errs : list error)
  : NodeProcessor :=
  snd (WriteShard (opened 1 w errs) 7 [p1; p2]).

Definition sent (w : list (option error)) (errs : list error)
  : NodeProcessor :=
  snd (SendWrite (written w errs)).

(** Scenario 1 with the worker itself: one retry tick on [written]. *)
Definition worked (w : list (option error)) (errs : list error)
  : worker * NodeProcessor :=
  run 10 [TickRetry] (written w errs).

(** Scenario 2: [k] retry ticks on [written]. *)
Definition retried (k : nat) (w : list (option error)) (errs : list error)
  : worker * NodeProcessor :=
  run 10 (repeat TickRetry k) (written w errs).

(** A point that does not encode. *)
Definition bad : bytes := [].

(** A generic failure of a collaborator. *)
Definition refused : error := Errorf "connection refused".

(** A block too short to hold a shard ID. *)
Definition corrupt : bytes := [1; 2; 3].

(** An open processor of node 1 whose queue holds [corrupt] and then a block
    of one point. *)
Definition poisoned : NodeProcessor :=
  match queue (opened 1 [] []) with
  | Some q =>
      let q := fst (SpecQueue.append q corrupt) in
      let q := fst (SpecQueue.append q (BigEndian.bytes8 7 ++ p1 ++ [10])%list) in
      set_queue (Some q) (opened 1 [] [])
  | None => opened 1 [] []
  end.

End Scenario.

(** ** meta/store.go: the other lookups, and the commands *)

Module MetaStore.

(** [&n] for a ranged-over element [n]: a NodeInfo with the element's
    fields. *)
Definition addressOf (n : influxmeta.NodeInfo) : NodeInfo :=
  {| ID := influxmeta.ID n; TCPHost := influxmeta.TCPHost n;
     Host := influxmeta.Host n |}.

(** What the methods below read of [s.raftState]: whether its [raft] is
    set, and what [raft.Leader()] answers. *)
Record raftState : Type := { raft : option string }.

(** The fields of [store] read below, on top of the data nodes. *)
Record t : Type := {
  data : store;                               (* s.data.DataNodes *)
  MetaNodes : list influxmeta.NodeInfo;       (* s.data.MetaNodes *)
  raftAddr : string;
  raftSt : option raftState                   (* s.raftState, nil or set *)
}.

(** The range loop of [store.dataNodeByTCPHost]. *)
Fixpoint dataNodeByTCPHost_loop (nodes : list influxmeta.NodeInfo)
    (tcpHost : string) : option NodeInfo :=
  match nodes with
  | [] => None
  | n :: nodes =>
      if negb (String.eqb tcpHost "") && String.eqb (influxmeta.TCPHost n) tcpHost
      then Some (addressOf n)
      else dataNodeByTCPHost_loop nodes tcpHost
  end.

Definition dataNodeByTCPHost (s : t) (tcpHost : string) : option NodeInfo :=
  dataNodeByTCPHost_loop (DataNodes (data s)) tcpHost.

(** The range loop of [store.nodeByHTTPAddr]. *)
Fixpoint nodeByHTTPAddr_loop (nodes : list influxmeta.NodeInfo) (addr : string)
  : option NodeInfo * option error :=
  match nodes with
  | [] => (None, Some ErrNodeNotFound)
  | ni :: nodes =>
      if String.eqb (influxmeta.Host ni) addr
      then (Some (addressOf ni), None)
      else nodeByHTTPAddr_loop nodes addr
  end.

Definition nodeByHTTPAddr (s : t) (addr : string)
  : option NodeInfo * option error :=
  nodeByHTTPAddr_loop (MetaNodes s) addr.

(** The range loop of [store.otherMetaServersHTTP], [a] being the slice
    built so far. *)
Fixpoint otherMetaServersHTTP_loop (nodes : list influxmeta.NodeInfo)
    (raftAddr : string) (a : list string) : list string :=
  match nodes with
  | [] => a
  | n :: nodes =>
      if negb (String.eqb (influxmeta.TCPHost n) raftAddr)
      then otherMetaServersHTTP_loop nodes raftAddr (a ++ [influxmeta.Host n])
      else otherMetaServersHTTP_loop nodes raftAddr a
  end.

Definition otherMetaServersHTTP (s : t) : list string :=
  otherMetaServersHTTP_loop (MetaNodes s) (raftAddr s) [].

(** [store.leader]: the empty string without a raft. *)
Definition leader (s : t) : string :=
  match raftSt s with
  | None => ""
  | Some rs => match raft rs with None => "" | Some l => l end
  end.

(** The range loop of [store.leaderHTTP]. *)
Fixpoint leaderHTTP_loop (nodes : list influxmeta.NodeInfo) (l : string)
  : string :=
  match nodes with
  | [] => ""
  | n :: nodes =>
      if String.eqb (influxmeta.TCPHost n) l then influxmeta.Host n
      else leaderHTTP_loop nodes l
  end.

(** [store.leaderHTTP]; [s.raftState.raft.Leader()] through a nil [raft] is
    a panic. *)
Definition leaderHTTP (s : t) : outcome string :=
  match raftSt s with
  | None => Ret ""%string
  | Some rs =>
      match raft rs with
      | None => Panic
      | Some l => Ret (leaderHTTP_loop (MetaNodes s) l)
      end
  end.

Section Commands.
(** The collaborators of the command methods: the building and marshalling
    of the protobuf command ([proto.SetExtension], whose error is a panic,
    and [proto.Marshal]), and [s.raftState.apply(b)], which returns once the
    state machine has the command and so leaves a new store. *)
Variable encodeUpdateDataNode :
  Z -> string -> string -> outcome (bytes * option error).
Variable raftApply : t -> bytes -> t * option error.

(** [store.apply] *)
Definition apply (s : t) (b : bytes) : t * option error :=
  match raftSt s with
  | None => (s, Some (Errorf "store not open"))
  | Some _ => raftApply s b
  end.

(** [store.updateDataNode] *)
Definition updateDataNode (s : t) (id : Z) (host tcpHost : string)
  : outcome (option error) * t :=
  match encodeUpdateDataNode id host tcpHost with
  | Ret (b, Some err) => (Ret (Some err), s)
  | Ret (b, None) =>
      match apply s b with
      | (s, Some err) => (Ret (Some err), s)
      | (s, None) =>
          match dataNodeByTCPHost s tcpHost with
          | None => (Ret (Some ErrNodeNotFound), s)
          | Some _ => (Ret None, s)
          end
      end
  | Panic => (Panic, s)
  | Block => (Block, s)
  end.

End Commands.

Section FilterAddr.
(** [net.SplitHostPort] and [net.ResolveIPAddr("ip", host)] followed by
    [String()]. *)
Variable SplitHostPort : string -> (string * string) * option error.
Variable ResolveIPAddr : string -> string * option error.

(** The range loop of [store.filterAddr], [joinPeers] being the slice built
    so far. *)
Fixpoint filterAddr_loop (addrs : list string) (ip port : string)
    (joinPeers : list string) : list string * option error :=
  match addrs with
  | [] => (joinPeers, None)
  | addr :: addrs =>
      match SplitHostPort addr with
      | (_, Some err) => ([], Some err)
      | ((joinHost, joinPort), None) =>
          match ResolveIPAddr joinHost with
          | (_, Some err) => ([], Some err)
          | (joinIP, None) =>
              if String.eqb ip joinIP && String.eqb port joinPort
              then filterAddr_loop addrs ip port joinPeers
              else filterAddr_loop addrs ip port (joinPeers ++ [addr])
          end
      end
  end.

Definition filterAddr (addrs : list string) (filter : string)
  : list string * option error :=
  match SplitHostPort filter with
  | (_, Some err) => ([], Some err)
  | ((host, port), None) =>
      match ResolveIPAddr host with
      | (_, Some err) => ([], Some err)
      | (ip, None) => filterAddr_loop addrs ip port []
      end
  end.

(** [addr] names the host and port of [filter]. *)
Definition isSelf (filter addr : string) : bool :=
  let '(host, port) := fst (SplitHostPort filter) in
  let '(joinHost, joinPort) := fst (SplitHostPort addr) in
  String.eqb (fst (ResolveIPAddr host)) (fst (ResolveIPAddr joinHost))
  && String.eqb port joinPort.

(** [addr] splits and resolves. *)
Definition resolves (addr : string) : bool :=
  match SplitHostPort addr with
  | (_, Some _) => false
  | ((h, _), None) =>
      match ResolveIPAddr h with (_, Some _) => false | (_, None) => true end
  end.

End FilterAddr.

End MetaStore.

(** ** The task list of package cluster *)

Module Tasks.

(** [type tasks []uint64] *)
Definition tasks := list Z.

(** [t[i]]: an index outside the slice is a panic. *)
Definition index (t : tasks) (i : Z) : outcome Z :=
  if (i <? 0) || (len t <=? i) then Panic else Ret (nth (Z.to_nat i) t 0).

(** [t[i] = v] *)
Fixpoint assign (t : tasks) (i : nat) (v : Z) : tasks :=
  match t, i with
  | [], _ => []
  | _ :: t, O => v :: t
  | x :: t, S i => x :: assign t i v
  end.

Definition Len (t : tasks) : Z := len t.

(** [t[i], t[j] = t[j], t[i]]: both indexes are evaluated, then both
    elements assigned. *)
Definition Swap (t : tasks) (i j : Z) : outcome tasks :=
  match index t j, index t i with
  | Ret tj, Ret ti => Ret (assign (assign t (Z.to_nat i) tj) (Z.to_nat j) ti)
  | _, _ => Panic
  end.

Definition Less (t : tasks) (i j : Z) : outcome bool :=
  match index t i, index t j with
  | Ret ti, Ret tj => Ret (ti <? tj)
  | _, _ => Panic
  end.

End Tasks.

(** ** More processors to run *)

Module Scenario2.
Import Stub SpecQueue Scenario.
Local Open Scope string_scope.

(** A shard writer script that reports the node gone. *)
Definition gone : list (option error) := [Some ErrNodeNotFound].

(** A processor whose queue directory path is taken by a file. *)
Definition blocked : NodeProcessor :=
  NewNodeProcessor 1 "/hh/1/1" [] {| sm_store := cluster; sm_errs := [] |}
                   config tree.

(** An open processor of node 1 whose queue has been closed behind its
    back, so that Append answers ErrNotOpen. *)
Definition unplugged : NodeProcessor :=
  match queue (opened 1 [] []) with
  | Some q => set_queue (Some (fst (SpecQueue.close q))) (opened 1 [] [])
  | None => opened 1 [] []
  end.

(** An open processor of node 1 whose queue takes no block of 24 bytes. *)
Definition tiny : NodeProcessor :=
  match queue (opened 1 [] []) with
  | Some q =>
      set_queue
        (Some {| SpecQueue.opened := true; SpecQueue.maxSize := 16;
                 SpecQueue.maxSegmentSize := 16; SpecQueue.clock := 0;
                 SpecQueue.segments := SpecQueue.segments q |})
        (opened 1 [] [])
  | None => opened 1 [] []
  end.

(** A meta store of three meta nodes, the second being the raft leader. *)
Definition metas : list influxmeta.NodeInfo :=
  [ {| influxmeta.ID := 1; influxmeta.Host := "m1:8091";
       influxmeta.TCPHost := "m1:8089" |};
    {| influxmeta.ID := 2; influxmeta.Host := "m2:8091";
       influxmeta.TCPHost := "m2:8089" |};
    {| influxmeta.ID := 3; influxmeta.Host := "m3:8091";
       influxmeta.TCPHost := "m3:8089" |} ].

Definition metaStore : MetaStore.t :=
  {| MetaStore.data := cluster; MetaStore.MetaNodes := metas;
     MetaStore.raftAddr := "m1:8089";
     MetaStore.raftSt := Some {| MetaStore.raft := Some "m2:8089" |} |}.

(** An address is host, colon, one-letter port here; hosts resolve to
    themselves, but for [localhost], which is [m1]. *)
Definition splitHostPort (a : string) : (string * string) * option error :=
  match index 0 ":" a with
  | Some k => ((substring 0 k a, substring (S k) (length a - S k) a), None)
  | None => (("", ""), Some (Errorf "missing port in address"))
  end.

Definition resolveIPAddr (h : string) : string * option error :=
  if String.eqb h "nowhere" then ("", Some (Errorf "no such host"))
  else if String.eqb h "localhost" then ("m1", None)
  else (h, None).

End Scenario2.

(** ** A stand-in for the codec the program is built with *)

Module BinaryStub.

(** A point of package models as far as its encodings go: the key
    (measurement and tags), the fields, and the 15 bytes that
    [time.Time.MarshalBinary] returns. *)
Record point : Type := { key : bytes; fields : bytes; tb : bytes }.

(** [binary.BigEndian.PutUint32] into a fresh slice. *)
Definition bytes4 (v : Z) : bytes :=
  [ byte_of (Z.shiftr v 24); byte_of (Z.shiftr v 16);
    byte_of (Z.shiftr v 8); byte_of v ].

(** The zero time, marshalled: version 1, seconds, nanoseconds, offset -1. *)
Definition zeroTime : bytes := [1; 0; 0; 0; 0; 0; 0; 0; 0; 0; 0; 0; 0; 255; 255].

(** [models.Point.MarshalBinary]: the length of the key and the key, the
    length of the fields and the fields, then the time; a point without
    fields is an error. *)
Definition marshalBinary (p : point) : bytes * option error :=
  match fields p with
  | [] => ([], Some (Errorf "point without fields"))
  | _ =>
      (bytes4 (len (key p)) ++ key p ++ bytes4 (len (fields p)) ++ fields p
         ++ tb p, None)
  end.

(** The bytes before the first [sep] and those after it. *)
Fixpoint splitAt (sep : Z) (line acc : bytes) : option (bytes * bytes) :=
  match line with
  | [] => None
  | x :: line =>
      if x =? sep then Some (acc, line) else splitAt sep line (acc ++ [x])
  end.

(** A line of the line protocol cut down to [key fields] and
    [key fields timestamp]: a key, a space, and fields that hold an equals
    sign; anything else does not parse. *)
Definition parseLine (line : bytes) : option point :=
  match splitAt 32 line [] with
  | None => None
  | Some (k, rest) =>
      let f := match splitAt 32 rest [] with
               | Some (f, _) => f
               | None => rest
               end in
      match k with
      | [] => None
      | _ =>
          if existsb (fun x => x =? 61) f
          then Some {| key := k; fields := f; tb := zeroTime |}
          else None
      end
  end.

Fixpoint parseLines (lines : list bytes) : list point * bool :=
  match lines with
  | [] => ([], true)
  | l :: lines =>
      let '(ps, ok) := parseLines lines in
      match parseLine l with
      | Some p => (p :: ps, ok)
      | None => (ps, false)
      end
  end.

(** [models.ParsePoints]: the points of the lines that parse, and an error
    when some line does not. *)
Definition parsePoints (b : bytes) : list point * option error :=
  let '(ps, ok) :=
    parseLines (filter Stub.nonempty (Stub.splitLines b [])) in
  (ps, if ok then None else Some (Errorf "unable to parse")).

(** The codec of the program: binary out, line protocol in. *)
Definition codec : PointCodec :=
  {| Point := point; MarshalBinary := marshalBinary;
     ParsePoints := parsePoints |}.

(** A shard writer for these points that answers with its script, then
    with success. *)
Definition writer : @ShardWriter codec :=
  {| shardWriter := list (option error);
     sw_WriteShard := fun w _ _ _ =>
                        match w with r :: w => (w, r) | [] => ([], None) end |}.

(** The points [cpu v=1] and [mem v=2] at the zero time. *)
Definition cpu : point :=
  {| key := [99; 112; 117]; fields := [118; 61; 49]; tb := zeroTime |}.
Definition mem : point :=
  {| key := [109; 101; 109]; fields := [118; 61; 50]; tb := zeroTime |}.

(** Scenario 1 with this codec: the processor of node 1, opened, after
    [WriteShard(7, {cpu, mem})], and after the worker's SendWrite. *)
Definition opened : @NodeProcessor codec SpecQueue.impl Stub.storeClient writer :=
  snd (Open (@NewNodeProcessor codec SpecQueue.impl Stub.storeClient writer
               1 "/hh/1" []
               {| Stub.sm_store := Scenario.cluster; Stub.sm_errs := [] |}
               Scenario.config Scenario.tree)).

Definition written : @NodeProcessor codec SpecQueue.impl Stub.storeClient writer :=
  snd (WriteShard opened 7 [cpu; mem]).

Definition sent : @NodeProcessor codec SpecQueue.impl Stub.storeClient writer :=
  snd (SendWrite written).

End BinaryStub.
Lemma uint64_small (x : Z) : 0 <= x < 2 ^ 64 -> uint64 x = x.
Proof. intros H. unfold uint64. now apply Z.mod_small. Qed.

Lemma testbit_octet (v k n : Z) :
  0 <= k -> 0 <= n ->
  Z.testbit (Z.shiftl (byte_of (Z.shiftr v k)) k) n
  = ((k <=? n) && (n <? k + 8) && Z.testbit v n)%bool.
Proof.
  intros Hk Hn. unfold byte_of.
  rewrite Z.shiftl_spec by assumption.
  destruct (Z.leb_spec k n) as [Hle | Hlt]; simpl.
  - rewrite Z.land_spec, Z.shiftr_spec by lia.
    replace (n - k + k) with n by lia.
    change 255 with (Z.ones 8).
    rewrite Z.testbit_ones_nonneg by lia.
    replace (n - k <? 8) with (n <? k + 8).
    + apply andb_comm.
    + destruct (Z.ltb_spec n (k + 8)), (Z.ltb_spec (n - k) 8); auto; lia.
  - apply Z.testbit_neg_r. lia.
Qed.

Lemma byte_of_range (x : Z) : 0 <= byte_of x < 256.
Proof.
  unfold byte_of. change 255 with (Z.ones 8). rewrite Z.land_ones by lia.
  apply Z.mod_pos_bound. lia.
Qed.

Lemma uint64_octet (x k : Z) :
  0 <= k <= 56 -> uint64 (Z.shiftl (byte_of x) k) = Z.shiftl (byte_of x) k.
Proof.
  intros Hk. apply uint64_small. rewrite Z.shiftl_mul_pow2 by lia.
  pose proof (byte_of_range x) as Hb.
  assert (H2 : 0 < 2 ^ k <= 2 ^ 56).
  { split; [apply Z.pow_pos_nonneg; lia | apply Z.pow_le_mono_r; lia]. }
  change (2 ^ 56) with 72057594037927936 in H2.
  change (2 ^ 64) with 18446744073709551616. nia.
Qed.

Ltac decide_cmp :=
  repeat match goal with
  | |- context [?a <=? ?b] =>
      first [ replace (a <=? b) with true by (symmetry; apply Z.leb_le; lia)
            | replace (a <=? b) with false by (symmetry; apply Z.leb_gt; lia) ]
  | |- context [?a <? ?b] =>
      first [ replace (a <? b) with true by (symmetry; apply Z.ltb_lt; lia)
            | replace (a <? b) with false by (symmetry; apply Z.ltb_ge; lia) ]
  end.

(** Reading back the eight bytes of a 64-bit value gives the value. *)
Lemma Uint64_bytes8 (v : Z) (rest : bytes) :
  0 <= v < 2 ^ 64 ->
  BigEndian.Uint64 (BigEndian.bytes8 v ++ rest) = Ret v.
Proof.
  intros Hv. unfold BigEndian.bytes8. cbn [app BigEndian.Uint64]. f_equal.
  replace (byte_of v) with (Z.shiftl (byte_of (Z.shiftr v 0)) 0)
    by (now rewrite Z.shiftr_0_r, Z.shiftl_0_r).
  rewrite !uint64_octet by lia.
  apply Z.bits_inj'. intros n Hn.
  rewrite !Z.lor_spec, !testbit_octet by lia.
  destruct (Z.testbit v n) eqn:Hbit.
  - assert (Hlt : n < 64).
    { destruct (Z.lt_ge_cases n 64) as [|Hge]; [assumption|].
      rewrite <- (Z.mod_small v (2 ^ 64)) in Hbit by assumption.
      rewrite Z.mod_pow2_bits_high in Hbit by lia. discriminate. }
    rewrite !andb_true_r.
    assert (Hcase : n < 8 \/ 8 <= n < 16 \/ 16 <= n < 24 \/ 24 <= n < 32 \/
                    32 <= n < 40 \/ 40 <= n < 48 \/ 48 <= n < 56 \/ 56 <= n < 64)
      by lia.
    repeat destruct Hcase as [Hcase | Hcase]; decide_cmp; reflexivity.
  - now rewrite !andb_false_r.
Qed.

Lemma int64_small (x : Z) : - 2 ^ 63 <= x < 2 ^ 63 -> int64 x = x.
Proof.
  intros H. unfold int64. rewrite Z.mod_small; lia.
Qed.

Lemma AddInt64_small (x d : Z) :
  - 2 ^ 63 <= x + d < 2 ^ 63 -> AddInt64 x d = x + d.
Proof. intros H. unfold AddInt64. now apply int64_small. Qed.

Example bytes8_258 : BigEndian.bytes8 258 = [0; 0; 0; 0; 0; 0; 1; 2].
Proof. reflexivity. Qed.

Example Uint64_258 : BigEndian.Uint64 [0; 0; 0; 0; 0; 0; 1; 2; 99] = Ret 258.
Proof. reflexivity. Qed.

Example Uint64_short : BigEndian.Uint64 [1; 2; 3] = Panic.
Proof. reflexivity. Qed.

Example int64_wraps : AddInt64 (2 ^ 63 - 1) 1 = - 2 ^ 63.
Proof. reflexivity. Qed.

Section FramingFacts.
Context {codec : PointCodec}.

Lemma marshalPoints_acc (points : list Point) (acc : bytes) :
  marshalPoints points acc = acc ++ framed points.
Proof.
  revert acc. induction points as [| p points IH]; intros acc.
  - unfold framed. simpl. now rewrite app_nil_r.
  - unfold framed in *. simpl. unfold encodes at 1.
    destruct (MarshalBinary p) as [pB [e |]] eqn:Hp; simpl.
    + apply IH.
    + rewrite IH, Hp. simpl. now rewrite <- !app_assoc.
Qed.

Lemma marshalWrite_eq (shardID : Z) (points : list Point) :
  marshalWrite shardID points = Ret (BigEndian.bytes8 shardID ++ framed points).
Proof.
  unfold marshalWrite, BigEndian.PutUint64.
  change (len (make 8) <? 8) with false. cbv iota.
  change (skipn 8 (make 8)) with (@nil byte).
  now rewrite app_nil_r, marshalPoints_acc.
Qed.

Lemma framed_filter (points : list Point) :
  framed (filter encodes points) = framed points.
Proof.
  unfold framed. f_equal.
  induction points as [| p points IH]; simpl; [reflexivity|].
  destruct (encodes p) eqn:Hp; simpl; [rewrite Hp|]; now rewrite ?IH.
Qed.

Lemma filter_all (points : list Point) :
  forallb encodes points = true -> filter encodes points = points.
Proof.
  induction points as [| p points IH]; simpl; [reflexivity|].
  intros H. apply andb_prop in H as [Hp Hps]. rewrite Hp. f_equal. now apply IH.
Qed.

Lemma length_bytes8_app (v : Z) (rest : bytes) :
  List.length (BigEndian.bytes8 v ++ rest) = (8 + List.length rest)%nat.
Proof. reflexivity. Qed.

Lemma len_bytes8_app (v : Z) (rest : bytes) :
  len (BigEndian.bytes8 v ++ rest) = 8 + len rest.
Proof. unfold len. rewrite length_bytes8_app. lia. Qed.

Lemma firstn_bytes8_app (v : Z) (rest : bytes) :
  firstn 8 (BigEndian.bytes8 v ++ rest) = BigEndian.bytes8 v.
Proof. reflexivity. Qed.

Lemma skipn_bytes8_app (v : Z) (rest : bytes) :
  skipn 8 (BigEndian.bytes8 v ++ rest) = rest.
Proof. reflexivity. Qed.

Lemma len_nonneg {A : Type} (l : list A) : 0 <= len l.
Proof. unfold len. lia. Qed.

(** Decoding a block that starts with the eight bytes of a shard ID. *)
Lemma unmarshalWrite_bytes8 (v : Z) (rest : bytes) :
  0 <= v < 2 ^ 64 ->
  unmarshalWrite (BigEndian.bytes8 v ++ rest)
  = Ret (v, fst (ParsePoints rest), snd (ParsePoints rest)).
Proof.
  intros Hv. unfold unmarshalWrite.
  rewrite len_bytes8_app.
  pose proof (len_nonneg rest) as Hr.
  replace (8 + len rest <? 8) with false by (symmetry; apply Z.ltb_ge; lia).
  unfold slice_to, slice_from.
  rewrite length_bytes8_app, firstn_bytes8_app, skipn_bytes8_app.
  change (8 + List.length rest <? 8)%nat with false. cbv iota.
  rewrite <- (app_nil_r (BigEndian.bytes8 v)).
  rewrite Uint64_bytes8 by assumption.
  now destruct (ParsePoints rest).
Qed.

(** What decoding a marshalled block gives, whatever the codec: the shard
    ID, and what the point parser makes of the frames.  The block is the one
    of the points that encode alone. *)
Lemma unmarshalWrite_marshalWrite (shardID : Z) (points : list Point) :
  0 <= shardID < 2 ^ 64 ->
  exists b,
    marshalWrite shardID points = Ret b
    /\ unmarshalWrite b
       = Ret (shardID, fst (ParsePoints (framed points)),
              snd (ParsePoints (framed points)))
    /\ marshalWrite shardID (filter encodes points) = Ret b
    /\ skipn 8 b = framed points.
Proof.
  intros Hid. exists (BigEndian.bytes8 shardID ++ framed points).
  split; [apply marshalWrite_eq|].
  split; [now apply unmarshalWrite_bytes8|].
  split; [now rewrite marshalWrite_eq, framed_filter | apply skipn_bytes8_app].
Qed.

(** C10. unmarshalWrite returns on every byte slice: below 8 bytes it
    returns the too-short error, from 8 bytes on it reads the shard ID from
    the first 8 bytes alone and hands the rest to the point parser; every
    block of marshalWrite has at least 8 bytes and is decoded that way. *)
Theorem unmarshalWrite_total (b : bytes) :
  (exists r, unmarshalWrite b = Ret r)
  /\ (len b < 8 ->
      unmarshalWrite b = Ret (0, [], Some (ErrTooShort (len b))))
  /\ (8 <= len b ->
      exists v, BigEndian.Uint64 (firstn 8 b) = Ret v
        /\ unmarshalWrite b
           = Ret (v, fst (ParsePoints (skipn 8 b)), snd (ParsePoints (skipn 8 b))))
  /\ (forall shardID points,
      exists m v, marshalWrite shardID points = Ret m
        /\ 8 <= len m
        /\ BigEndian.Uint64 (firstn 8 m) = Ret v
        /\ unmarshalWrite m
           = Ret (v, fst (ParsePoints (skipn 8 m)), snd (ParsePoints (skipn 8 m)))).
Proof.
  assert (Hlong : forall c : bytes, 8 <= len c ->
            exists v, BigEndian.Uint64 (firstn 8 c) = Ret v
              /\ unmarshalWrite c
                 = Ret (v, fst (ParsePoints (skipn 8 c)),
                        snd (ParsePoints (skipn 8 c)))).
  { intros c Hc. unfold unmarshalWrite.
    replace (len c <? 8) with false by (symmetry; apply Z.ltb_ge; lia).
    unfold slice_to, slice_from.
    replace (List.length c <? 8)%nat with false
      by (symmetry; apply Nat.ltb_ge; unfold len in Hc; lia).
    destruct c as [| c0 [| c1 [| c2 [| c3 [| c4 [| c5 [| c6 [| c7 c]]]]]]]];
      try (unfold len in Hc; simpl in Hc; lia).
    cbn [firstn skipn BigEndian.Uint64]. eexists. split; [reflexivity|].
    now destruct (ParsePoints c). }
  assert (Hshort : len b < 8 ->
            unmarshalWrite b = Ret (0, [], Some (ErrTooShort (len b)))).
  { intros Hb. unfold unmarshalWrite.
    now replace (len b <? 8) with true by (symmetry; apply Z.ltb_lt; lia). }
  split; [| split; [exact Hshort | split; [apply Hlong |]]].
  - destruct (Z.lt_ge_cases (len b) 8) as [Hb | Hb].
    + eexists. now apply Hshort.
    + destruct (Hlong b Hb) as [v [_ Hv]]. eexists. exact Hv.
  - intros shardID points.
    assert (Hm : 8 <= len (BigEndian.bytes8 shardID ++ framed points)).
    { rewrite len_bytes8_app. pose proof (len_nonneg (framed points)). lia. }
    destruct (Hlong _ Hm) as [v [Hv Hu]].
    exists (BigEndian.bytes8 shardID ++ framed points), v.
    split; [apply marshalWrite_eq|]. now repeat split.
Qed.

End FramingFacts.

(** ** The store lookup *)

Lemma dataNode_loop_Some (nodes : list influxmeta.NodeInfo) (id : Z)
    (ni : NodeInfo) :
  dataNode_loop nodes id = Some ni ->
  ID ni = id /\ exists d, In d nodes /\ influxmeta.ID d = id.
Proof.
  induction nodes as [| d nodes IH]; simpl; [discriminate|].
  destruct (Z.eqb_spec (influxmeta.ID d) id) as [Heq | Hne].
  - intros H. injection H as <-. simpl. split; [assumption|].
    exists d. auto.
  - intros H. destruct (IH H) as [Hid [d' [Hin Hd']]].
    split; [assumption|]. exists d'. auto.
Qed.

Lemma dataNode_loop_found (nodes : list influxmeta.NodeInfo) (id : Z) :
  (exists d, In d nodes /\ influxmeta.ID d = id) ->
  exists ni, dataNode_loop nodes id = Some ni.
Proof.
  induction nodes as [| d nodes IH]; simpl.
  - intros [d [[] _]].
  - intros [d' [[-> | Hin] Hd']].
    + rewrite Hd', Z.eqb_refl. eauto.
    + destruct (influxmeta.ID d =? id); eauto.
Qed.

(** ** The file tree *)

Lemma under_self (root : string) : under root root = true.
Proof. unfold under. now rewrite String.eqb_refl. Qed.

Lemma fs_lookup_RemoveAll (tree : FS) (path : string) :
  fs_lookup (fst (RemoveAll tree path)) path = None.
Proof.
  unfold RemoveAll. cbn [fst].
  induction tree as [| [p k] tree IH]; [reflexivity|].
  cbn [filter fst]. destruct (under path p) eqn:Hu; cbn [negb]; [exact IH|].
  cbn [fs_lookup]. destruct (String.eqb_spec p path) as [-> | _]; [|exact IH].
  now rewrite under_self in Hu.
Qed.

Lemma In_RemoveAll (tree : FS) (path p : string) (k : fkind) :
  In (p, k) (fst (RemoveAll tree path))
  <-> In (p, k) tree /\ under path p = false.
Proof.
  unfold RemoveAll. cbn [fst]. rewrite filter_In. cbn [fst].
  now rewrite negb_true_iff.
Qed.

Section ProcessorFacts.
Context {codec : PointCodec} {qi : QueueImpl} {mc : MetaClient}
        {sw : ShardWriter}.

Ltac fields :=
  cbn [cfg nodeID dir done wg queue meta writer stats Logger fs calls nextChan
       set_done set_wg set_queue set_meta set_writer set_stats set_fs
       set_nextChan Printf record fst snd negb orb] in *.

(** SendWrite up to the decoding of the current block, on an active node. *)
Lemma SendWrite_current (n : NodeProcessor) (m' : metaClient) (ni : NodeInfo)
    (q q1 : queue_t) (buf : bytes) :
  DataNode (meta n) (nodeID n) = (m', (Some ni, None)) ->
  queue n = Some q ->
  q_Current q = (q1, (buf, None)) ->
  SendWrite n
  = match SendWrite_goroutine
            (record CallCurrent
               (set_queue (Some q1)
                  (record (CallDataNode (nodeID n)) (set_meta m' n)))) buf with
    | (Ret r, n) => SendWrite_receive n q1 buf r
    | (Panic, n) => (Panic, n)
    | (Block, n) => (Block, n)
    end.
Proof.
  intros Hm Hq Hc. unfold SendWrite, Active. rewrite Hm. fields.
  rewrite Hq, Hc. reflexivity.
Qed.

(** Whatever the shard writer answers other than the two sentinels, SendWrite
    logs it, advances the queue and reports the block as sent. *)
Lemma SendWrite_swallows_writer_error (n : NodeProcessor) (m' : metaClient)
    (ni : NodeInfo) (q q1 q2 : queue_t) (buf : bytes) (shardID : Z)
    (points : list Point) (w' : shardWriter) (e : error) :
  DataNode (meta n) (nodeID n) = (m', (Some ni, None)) ->
  queue n = Some q ->
  q_Current q = (q1, (buf, None)) ->
  unmarshalWrite buf = Ret (shardID, points, None) ->
  sw_WriteShard (writer n) shardID (nodeID n) points = (w', Some e) ->
  is_EOF e = false -> is_ErrNodeNotFound e = false ->
  q_Advance q1 = (q2, None) ->
  exists n', SendWrite n = (Ret (len buf, None), n')
    /\ queue n' = Some q2
    /\ stats n' = stats n
    /\ Logger n' = Logger n ++ [("SendWrite error: %v"%string, e)].
Proof.
  intros Hm Hq Hc Hu Hw He1 He2 Ha.
  rewrite (SendWrite_current n m' ni q q1 buf Hm Hq Hc).
  unfold SendWrite_goroutine. rewrite Hu. fields. rewrite Hw.
  unfold SendWrite_receive. rewrite He1, He2. fields. rewrite Ha.
  eexists. split; [reflexivity|]. fields. auto.
Qed.

(** An error of SendWrite other than the two sentinels leaves the retry
    interval as it was, cut down to [RetryMaxInterval]: nothing doubles it. *)
Lemma drain_other_error (fuel : nat) (currInterval c : Z) (e : error)
    (n n' : NodeProcessor) :
  SendWrite n = (Ret (c, Some e), n') ->
  is_EOF e = false -> is_ErrNodeNotFound e = false ->
  fst (drain (S fuel) currInterval n)
  = DrainBreak (Z.min currInterval (RetryMaxInterval (cfg n'))).
Proof.
  intros Hs He1 He2. cbn [drain]. rewrite Hs, He1, He2. cbn [fst].
  f_equal. destruct (Z.gtb_spec currInterval (RetryMaxInterval (cfg n'))); lia.
Qed.

(** With no point that encodes the block is the shard ID alone, and it is
    appended all the same. *)
Lemma WriteShard_header_only (n : NodeProcessor) (c : nat) (q q1 : queue_t)
    (shardID : Z) (points : list Point) :
  done n = Some c ->
  queue n = Some q ->
  forallb (fun p => negb (encodes p)) points = true ->
  q_Append q (BigEndian.bytes8 shardID) = (q1, None) ->
  exists n', WriteShard n shardID points = (Ret None, n')
    /\ queue n' = Some q1
    /\ calls n' = calls n ++ [CallAppend (BigEndian.bytes8 shardID)].
Proof.
  intros Hd Hq Hp Ha. unfold WriteShard. rewrite Hd. fields. rewrite Hq.
  rewrite marshalWrite_eq.
  assert (Hf : framed points = []).
  { unfold framed. replace (filter encodes points) with (@nil Point);
      [reflexivity|].
    clear - Hp. induction points as [| p points IH]; [reflexivity|].
    cbn [forallb filter] in *. apply andb_prop in Hp as [Hp Hps].
    apply negb_true_iff in Hp. rewrite Hp. now apply IH. }
  rewrite Hf, app_nil_r.
  change (len (BigEndian.bytes8 shardID) =? 0) with false. cbv iota.
  rewrite Ha. eexists. split; [reflexivity|]. fields. auto.
Qed.

(** C4. When the metadata client answers with no NodeInfo and no error,
    SendWrite returns EOF having asked the metadata client alone: the queue
    is not read and stays as it was.  [store.dataNode] returns a NodeInfo
    exactly for the ids of its data-node list, and the NodeInfo carries the
    id asked for. *)
Theorem SendWrite_inactive_EOF (n : NodeProcessor) (m' : metaClient)
    (s : store) (id : Z) :
  DataNode (meta n) (nodeID n) = (m', (None, None)) ->
  SendWrite n
  = (Ret (0, Some EOF), record (CallDataNode (nodeID n)) (set_meta m' n))
  /\ queue (snd (SendWrite n)) = queue n
  /\ calls (snd (SendWrite n)) = calls n ++ [CallDataNode (nodeID n)]
  /\ ((exists ni, dataNode s id = Some ni)
      <-> (exists d, In d (DataNodes s) /\ influxmeta.ID d = id))
  /\ (forall ni, dataNode s id = Some ni -> ID ni = id).
Proof.
  intros Hm.
  assert (Hs : SendWrite n
               = (Ret (0, Some EOF),
                  record (CallDataNode (nodeID n)) (set_meta m' n))).
  { unfold SendWrite, Active. rewrite Hm. reflexivity. }
  rewrite Hs. fields. repeat split; try reflexivity.
  - intros [ni Hni]. now apply dataNode_loop_Some in Hni.
  - apply dataNode_loop_found.
  - intros ni Hni. now apply dataNode_loop_Some in Hni.
Qed.

(** C5. When the current block fails to decode (with an error that is not
    one of the two sentinels, as every decoding error is), SendWrite counts
    one more writeNodeReqFail, advances the queue past the block without
    calling the shard writer, and returns no error: the worker goes on with
    the next block at the configured retry interval. *)
Theorem SendWrite_decode_error_advances (n : NodeProcessor) (m' : metaClient)
    (ni : NodeInfo) (q q1 q2 : queue_t) (buf : bytes) (shardID : Z)
    (points : list Point) (e : error) (aerr : option error) (fuel : nat)
    (currInterval : Z) :
  DataNode (meta n) (nodeID n) = (m', (Some ni, None)) ->
  queue n = Some q ->
  q_Current q = (q1, (buf, None)) ->
  unmarshalWrite buf = Ret (shardID, points, Some e) ->
  is_EOF e = false -> is_ErrNodeNotFound e = false ->
  q_Advance q1 = (q2, aerr) ->
  exists n', SendWrite n = (Ret (len buf, None), n')
    /\ WriteNodeReqFail (stats n') = AddInt64 (WriteNodeReqFail (stats n)) 1
    /\ (- 2 ^ 63 <= WriteNodeReqFail (stats n) < 2 ^ 63 - 1 ->
        WriteNodeReqFail (stats n') = WriteNodeReqFail (stats n) + 1)
    /\ queue n' = Some q2
    /\ calls n' = calls n ++ [CallDataNode (nodeID n); CallCurrent; CallAdvance]
    /\ writer n' = writer n
    /\ drain (S fuel) currInterval n
       = drain fuel (RetryInterval (cfg n))
               (record (CallLimiterUpdate (len buf)) n').
Proof.
  intros Hm Hq Hc Hu He1 He2 Ha.
  pose proof (SendWrite_current n m' ni q q1 buf Hm Hq Hc) as Hs.
  unfold SendWrite_goroutine in Hs. rewrite Hu in Hs.
  unfold SendWrite_receive in Hs. rewrite He1, He2 in Hs. fields.
  rewrite Ha in Hs.
  assert (Hex : exists n', SendWrite n = (Ret (len buf, None), n')
            /\ WriteNodeReqFail (stats n')
               = AddInt64 (WriteNodeReqFail (stats n)) 1
            /\ queue n' = Some q2
            /\ calls n'
               = calls n ++ [CallDataNode (nodeID n); CallCurrent; CallAdvance]
            /\ writer n' = writer n /\ cfg n' = cfg n).
  { destruct aerr as [ae |]; eexists; (split; [exact Hs|]); fields;
      rewrite <- !app_assoc; repeat split; reflexivity. }
  destruct Hex as [n' [Hn' [Hst [Hq' [Hcalls [Hw Hcfg]]]]]].
  exists n'. repeat split; try assumption.
  - intros Hr. rewrite Hst. apply AddInt64_small. lia.
  - cbn [drain]. rewrite Hn'. now rewrite Hcfg.
Qed.

(** The one counter of C7 that SendWrite can move besides those of the
    send: writeShardReq stays or goes up by one, whatever the codec and the
    collaborators do. *)
Lemma SendWrite_WriteShardReq (n : NodeProcessor) :
  WriteShardReq (stats (snd (SendWrite n))) = WriteShardReq (stats n)
  \/ WriteShardReq (stats (snd (SendWrite n)))
     = AddInt64 (WriteShardReq (stats n)) 1.
Proof.
  unfold SendWrite, Active, SendWrite_goroutine, SendWrite_receive.
  repeat (match goal with
          | |- context [match ?x with _ => _ end] =>
              lazymatch x with
              | context [match _ with _ => _ end] => fail
              | _ => destruct x
              end
          end; fields);
    cbn [add_WriteShardReq add_WriteNodeReq add_WriteNodeReqPoints
         add_WriteNodeReqFail WriteShardReq];
    auto.
Qed.


(** Whatever the codec and whatever SendWrite then meets, writeShardReq is
    2 or 3 after one accepted WriteShard from zero and one SendWrite, never
    1. *)
Lemma writeShardReq_not_one (n : NodeProcessor) (c : nat) (q q1 : queue_t)
    (shardID : Z) (points : list Point) :
  done n = Some c ->
  queue n = Some q ->
  WriteShardReq (stats n) = 0 ->
  q_Append q (BigEndian.bytes8 shardID ++ framed points) = (q1, None) ->
  WriteShardReq (stats (snd (SendWrite (snd (WriteShard n shardID points)))))
  <> 1.
Proof.
  intros Hd Hq Hs0 Happ.
  assert (H2 : WriteShardReq (stats (snd (WriteShard n shardID points))) = 2).
  { unfold WriteShard. rewrite Hd. fields. rewrite Hq, marshalWrite_eq.
    replace (len (BigEndian.bytes8 shardID ++ framed points) =? 0) with false.
    - rewrite Happ. fields.
      cbn [add_WriteShardReq add_WriteShardReqPoints store_WriteDiskSegments
           store_WriteDiskBytes WriteShardReq].
      rewrite Hs0. reflexivity.
    - symmetry. apply Z.eqb_neq. rewrite len_bytes8_app.
      pose proof (len_nonneg (framed points)). lia. }
  destruct (SendWrite_WriteShardReq (snd (WriteShard n shardID points)))
    as [H | H]; rewrite H, H2; [discriminate|].
  change (AddInt64 2 1) with 3. discriminate.
Qed.

(** C8. Purge on an open processor returns an error and changes nothing, so
    the queue directory stays; on a closed processor it returns no error and
    removes the queue directory with all that lies below it, and nothing
    else. *)
Theorem Purge_open_fails_closed_removes (n : NodeProcessor) :
  (forall c, done n = Some c ->
     Purge n = (Some (Errorf "node processor is open"), n))
  /\ (done n = None ->
      exists n', Purge n = (None, n')
        /\ fs_lookup (fs n') (dir n) = None
        /\ (forall p k, In (p, k) (fs n')
                        <-> In (p, k) (fs n) /\ under (dir n) p = false)
        /\ done n' = None /\ queue n' = queue n).
Proof.
  split.
  - intros c Hd. unfold Purge. now rewrite Hd.
  - intros Hd. unfold Purge. rewrite Hd.
    exists (set_fs (fst (RemoveAll (fs n) (dir n))) n).
    split; [reflexivity|]. fields.
    split; [apply fs_lookup_RemoveAll|].
    split; [intros p k; apply In_RemoveAll|]. auto.
Qed.

Lemma Open_done (n : NodeProcessor) : done (snd (Open n)) <> None.
Proof.
  unfold Open. destruct (done n) as [c |] eqn:Hd; [cbn [snd]; now rewrite Hd|].
  fields.
  destruct (MkdirAll (fs n) (dir n)) as [fs' [e |]]; fields; [discriminate|].
  destruct (newQueue (dir n) (MaxSize (cfg n))) as [q0 [e |]]; fields;
    [discriminate|].
  destruct (q_Open q0) as [q1 [e |]]; fields; discriminate.
Qed.

Lemma Close_done (n : NodeProcessor) : done (snd (Close n)) = None.
Proof.
  unfold Close. destruct (done n) as [c |] eqn:Hd; [|cbn [snd]; exact Hd].
  fields. destruct (queue n) as [q |]; fields; [|reflexivity].
  destruct (q_Close q) as [q' e]. reflexivity.
Qed.

(** C9. A second Open in a row returns nil and leaves the processor as the
    first left it, and so does a second Close; an Open that succeeds on a
    closed processor leaves a done channel, a queue and one more worker. *)
Theorem Open_Close_idempotent (n : NodeProcessor) :
  Open (snd (Open n)) = (None, snd (Open n))
  /\ Close (snd (Close n)) = (Ret None, snd (Close n))
  /\ (done n = None -> fst (Open n) = None ->
      exists q, done (snd (Open n)) = Some (nextChan n)
        /\ queue (snd (Open n)) = Some q
        /\ wg (snd (Open n)) = wg n + 1).
Proof.
  split; [| split].
  - pose proof (Open_done n) as H. unfold Open at 1.
    destruct (done (snd (Open n))); [reflexivity | contradiction].
  - pose proof (Close_done n) as H. unfold Close at 1. now rewrite H.
  - intros Hd. unfold Open. rewrite Hd. fields.
    destruct (MkdirAll (fs n) (dir n)) as [fs' [e |]]; fields; [discriminate|].
    destruct (newQueue (dir n) (MaxSize (cfg n))) as [q0 [e |]]; fields;
      [discriminate|].
    destruct (q_Open q0) as [q1 [e |]]; fields; [discriminate|].
    intros _. exists q1. auto.
Qed.

End ProcessorFacts.

(** ** The retry interval of the worker *)

Section WorkerFacts.
Context {codec : PointCodec} {qi : QueueImpl} {mc : MetaClient}
        {sw : ShardWriter}.

Ltac fields :=
  cbn [cfg nodeID dir done wg queue meta writer stats Logger fs calls nextChan
       set_done set_wg set_queue set_meta set_writer set_stats set_fs
       set_nextChan Printf record fst snd negb orb] in *.

Lemma retryDelays_app (a b : list call) :
  retryDelays (a ++ b) = retryDelays a ++ retryDelays b.
Proof.
  induction a as [| c a IH]; [reflexivity|].
  destruct c; cbn [app retryDelays]; rewrite IH; reflexivity.
Qed.

(** What SendWrite leaves alone: the configuration and the tickers made. *)
Lemma SendWrite_frame (n : NodeProcessor) :
  cfg (snd (SendWrite n)) = cfg n
  /\ retryDelays (calls (snd (SendWrite n))) = retryDelays (calls n).
Proof.
  unfold SendWrite, Active, SendWrite_goroutine, SendWrite_receive.
  repeat (match goal with
          | |- context [match ?x with _ => _ end] =>
              lazymatch x with
              | context [match _ with _ => _ end] => fail
              | _ => destruct x
              end
          end; fields);
    rewrite ?retryDelays_app; cbn [retryDelays]; rewrite ?app_nil_r;
    split; reflexivity.
Qed.

Lemma drain_frame (fuel : nat) (currInterval : Z) (n : NodeProcessor) :
  configured (cfg n) currInterval ->
  cfg (snd (drain fuel currInterval n)) = cfg n
  /\ retryDelays (calls (snd (drain fuel currInterval n)))
     = retryDelays (calls n)
  /\ (forall d, fst (drain fuel currInterval n) = DrainBreak d ->
                configured (cfg n) d).
Proof.
  revert currInterval n.
  induction fuel as [| fuel IH]; intros currInterval n Hci.
  - cbn [drain fst snd]. repeat split. discriminate.
  - cbn [drain]. destruct (SendWrite_frame n) as [Hcfg Hcalls].
    destruct (SendWrite n) as [[[c [e |]] | |] n'] eqn:Hs; cbn [snd] in *.
    + destruct (is_EOF e); [| destruct (is_ErrNodeNotFound e)];
        fields; repeat split; try assumption; try discriminate.
      * intros d Hd. injection Hd as <-. left. now rewrite Hcfg.
      * intros d Hd. injection Hd as <-. rewrite Hcfg.
        destruct (currInterval >? RetryMaxInterval (cfg n));
          [now right | assumption].
    + assert (Hri : configured (cfg (record (CallLimiterUpdate c) n'))
                               (RetryInterval (cfg n')))
        by (left; reflexivity).
      destruct (IH _ _ Hri) as [H1 [H2 H3]]. fields.
      rewrite H1, H2, retryDelays_app, Hcalls, Hcfg. cbn [retryDelays].
      rewrite app_nil_r. repeat split.
      intros d Hd. rewrite <- Hcfg in *. now apply H3.
    + repeat split; try assumption. discriminate.
    + repeat split; try assumption. discriminate.
Qed.

Lemma run_loop_delays (fuel : nat) (ticks : list tick) (currInterval : Z)
    (n : NodeProcessor) (d : Z) :
  configured (cfg n) currInterval ->
  In d (retryDelays (calls (snd (run_loop fuel ticks currInterval n)))) ->
  In d (retryDelays (calls n)) \/ configured (cfg n) d.
Proof.
  revert currInterval n.
  induction ticks as [| t ticks IH]; intros currInterval n Hci;
    cbn [run_loop].
  - cbn [snd]. auto.
  - destruct ((PurgeInterval (cfg n) <=? 0) || (currInterval <=? 0));
      [cbn [snd]; auto|].
    assert (Htick : In d (retryDelays (calls n) ++ [currInterval]) ->
              In d (retryDelays (calls n)) \/ configured (cfg n) d).
    { intros Hin. apply in_app_or in Hin.
      destruct Hin as [Hin | [<- | []]]; auto. }
    destruct t as [| now |].
    + fields. rewrite retryDelays_app. exact Htick.
    + fields. destruct (queue n) as [q |]; fields;
        [| rewrite retryDelays_app; exact Htick].
      destruct (q_PurgeOlderThan q (now - MaxAge (cfg n))) as [q' err].
      intros Hin. apply IH in Hin.
      * destruct Hin as [Hin | Hin]; [| destruct err; fields; auto].
        apply Htick.
        destruct err; fields; rewrite !retryDelays_app in Hin;
          cbn [retryDelays] in Hin; rewrite app_nil_r in Hin; exact Hin.
      * destruct err; fields; exact Hci.
    + destruct (drain_frame fuel currInterval
                  (record (CallNewTicker currInterval) n) Hci)
        as [Hcfg [Hcalls Hbreak]].
      destruct (drain fuel currInterval (record (CallNewTicker currInterval) n))
        as [[d' | | |] n'] eqn:Hdr; cbn [fst snd] in *; fields;
        rewrite retryDelays_app in Hcalls; cbn [retryDelays] in Hcalls.
      * intros Hin. apply IH in Hin.
        -- rewrite Hcfg, Hcalls in Hin. destruct Hin as [Hin | Hin]; auto.
        -- rewrite Hcfg. now apply Hbreak.
      * rewrite Hcalls. exact Htick.
      * rewrite Hcalls. exact Htick.
      * rewrite Hcalls. exact Htick.
Qed.

(** Whatever the ticks and whatever the collaborators answer, every retry
    ticker the worker makes has the interval [RetryInterval] or
    [RetryMaxInterval]: no interval is ever the double of another. *)
Lemma run_delays_configured (fuel : nat) (ticks : list tick)
    (n : NodeProcessor) (d : Z) :
  In d (retryDelays (calls (snd (run fuel ticks n)))) ->
  In d (retryDelays (calls n)) \/ configured (cfg n) d.
Proof.
  unfold run. apply run_loop_delays.
  destruct (RetryInterval (cfg n) >? RetryMaxInterval (cfg n));
    [now right | now left].
Qed.

End WorkerFacts.

(** ** The scenarios, run *)

Module ScenarioFacts.
Import Stub SpecQueue Scenario.

(** C1, what the code does instead.  Node 1 is a member, the queue of its
    open processor holds one block of two points, and the shard writer
    answers [connection refused], an error that is neither node-not-found nor
    EOF.  SendWrite returns 24 and no error, and the block is gone from the
    queue: the worker is told it was sent and never tries it again. *)
Theorem SendWrite_writer_error_skips_block :
  option_map (fun q => snd (current q)) (queue (written [Some refused] []))
  = Some (BigEndian.bytes8 7 ++ p1 ++ [10] ++ p2 ++ [10], None)
  /\ fst (SendWrite (written [Some refused] [])) = Ret (24, None)
  /\ option_map empty (queue (sent [Some refused] [])) = Some true
  /\ option_map (fun q => snd (current q)) (queue (sent [Some refused] []))
     = Some ([], Some EOF)
  /\ Logger (sent [Some refused] []) = [("SendWrite error: %v"%string, refused)]
  /\ WriteNodeReq (stats (sent [Some refused] [])) = 0
  /\ fst (worked [Some refused] []) = Waiting (100 * ms).
Proof. vm_compute. repeat split; reflexivity. Qed.

(** C2, what the code does instead.  With RetryInterval 100ms and
    RetryMaxInterval 800ms, SendWrite fails three times with a generic error
    (of the metadata client) before it succeeds.  The retry tickers are made
    with 100ms each time, not with 100, 200 and 400ms; and when it is the
    shard writer that fails three times, the first failure already drops the
    block and the interval stays 100ms. *)
Theorem run_backoff_never_doubles :
  retryDelays (calls (snd (retried 5 [] [refused; refused; refused])))
  = [100 * ms; 100 * ms; 100 * ms; 100 * ms; 100 * ms]
  /\ Logger (snd (retried 5 [] [refused; refused; refused]))
     = [("error on sending write:%v"%string, refused);
        ("error on sending write:%v"%string, refused);
        ("error on sending write:%v"%string, refused)]
  /\ WriteNodeReq (stats (snd (retried 5 [] [refused; refused; refused]))) = 1
  /\ retryDelays
       (calls (snd (retried 4 [Some refused; Some refused; Some refused] [])))
     = [100 * ms; 100 * ms; 100 * ms; 100 * ms]
  /\ WriteNodeReq
       (stats (snd (retried 4 [Some refused; Some refused; Some refused] [])))
     = 0.
Proof. vm_compute. repeat split; reflexivity. Qed.

(** C3, what the code does instead.  WriteShard(7, points) on an open
    processor with two points that do not encode, or with no point at all:
    the call succeeds, and a block of the 8 bytes of the shard ID is appended
    to the queue, which is empty no longer. *)
Theorem WriteShard_appends_empty_batch :
  forallb encodes [bad; bad] = false
  /\ fst (WriteShard (opened 1 [] []) 7 [bad; bad]) = Ret None
  /\ calls (snd (WriteShard (opened 1 [] []) 7 [bad; bad]))
     = [CallAppend [0; 0; 0; 0; 0; 0; 0; 7]]
  /\ option_map (fun q => map seg_blocks (segments q))
       (queue (snd (WriteShard (opened 1 [] []) 7 [bad; bad])))
     = Some [[[0; 0; 0; 0; 0; 0; 0; 7]]]
  /\ option_map empty (queue (opened 1 [] [])) = Some true
  /\ option_map empty (queue (snd (WriteShard (opened 1 [] []) 7 [])))
     = Some false.
Proof. vm_compute. repeat split; reflexivity. Qed.

(** C6, what the code does instead.  With the codec the program is built
    with, the two points of scenario 1 both encode, marshalWrite frames
    their binary encodings into a block of 68 bytes, and unmarshalWrite gets
    the shard ID 7 back from it but no point: the point parser reads lines of
    text and rejects the frames. *)
Theorem marshalled_points_do_not_parse :
  forallb (@encodes BinaryStub.codec) [BinaryStub.cpu; BinaryStub.mem] = true
  /\ option_map len (match @marshalWrite BinaryStub.codec 7
                              [BinaryStub.cpu; BinaryStub.mem] with
                      | Ret b => Some b
                      | _ => None
                      end) = Some 68
  /\ match @marshalWrite BinaryStub.codec 7 [BinaryStub.cpu; BinaryStub.mem] with
     | Ret b => @unmarshalWrite BinaryStub.codec b
     | _ => Panic
     end = Ret (7, [], Some (Errorf "unable to parse"))
  /\ @ParsePoints BinaryStub.codec
       (@framed BinaryStub.codec [BinaryStub.cpu; BinaryStub.mem])
     <> ([BinaryStub.cpu; BinaryStub.mem], None).
Proof.
  vm_compute. repeat split; try reflexivity. discriminate.
Qed.


(** The general facts behind C1, C2 and C3, in these scenarios. *)
Example swallowed_writer_error_at_scenario :
  exists n', SendWrite (written [Some refused] []) = (Ret (24, None), n')
    /\ option_map empty (queue n') = Some true.
Proof.
  edestruct (SendWrite_swallows_writer_error (written [Some refused] []))
    as [n' [Hs [Hq _]]];
    [ lazy; reflexivity | lazy; reflexivity | lazy; reflexivity
    | lazy; reflexivity | lazy; reflexivity | reflexivity | reflexivity
    | lazy; reflexivity | ].
  exists n'. split; [exact Hs|]. now rewrite Hq.
Qed.

Example no_doubling_at_scenario :
  fst (drain 1 (100 * ms) (written [] [refused])) = DrainBreak (100 * ms).
Proof.
  assert (Hs : SendWrite (written [] [refused])
               = (Ret (0, Some refused), snd (SendWrite (written [] [refused]))))
    by (vm_compute; reflexivity).
  rewrite (drain_other_error 0 _ _ _ _ _ Hs eq_refl eq_refl).
  vm_compute. reflexivity.
Qed.

(** In scenario 2 no retry ticker of 200ms or 400ms is ever made, whatever
    the ticks, the shard writer and the metadata client do. *)
Example no_200ms_at_scenario (fuel : nat) (ticks : list tick)
    (w : list (option error)) (errs : list error) (d : Z) :
  In d (retryDelays (calls (snd (run fuel ticks (written w errs))))) ->
  d = 100 * ms \/ d = 800 * ms.
Proof.
  intros Hin. apply run_delays_configured in Hin.
  destruct Hin as [[] | Hin]. exact Hin.
Qed.

Example header_only_block_at_scenario :
  exists n', WriteShard (opened 1 [] []) 7 [bad; bad] = (Ret None, n')
    /\ calls n' = [CallAppend (BigEndian.bytes8 7)].
Proof.
  edestruct (WriteShard_header_only (opened 1 [] []) 0) with
    (shardID := 7) (points := [bad; bad]) as [n' [Hw [_ Hc]]];
    [ reflexivity | lazy; reflexivity | reflexivity | lazy; reflexivity | ].
  exists n'. split; [exact Hw | exact Hc].
Qed.

(** ** The theorems at concrete inputs *)

(** A block of three bytes is too short. *)
Lemma unmarshalWrite_total_witness :
  len corrupt < 8
  /\ unmarshalWrite corrupt = Ret (0, [], Some (ErrTooShort 3)).
Proof.
  assert (H : len corrupt < 8) by (vm_compute; reflexivity).
  split; [exact H|].
  exact (proj1 (proj2 (unmarshalWrite_total corrupt)) H).
Defined.

(** Node 3 is not in the cluster: its processor sends nothing. *)
Lemma SendWrite_inactive_EOF_witness :
  DataNode (meta (snd (WriteShard (opened 3 [] []) 7 [p1; p2]))) 3
  = ({| sm_store := cluster; sm_errs := [] |}, (None, None))
  /\ fst (SendWrite (snd (WriteShard (opened 3 [] []) 7 [p1; p2])))
     = Ret (0, Some EOF)
  /\ dataNode cluster 3 = None.
Proof.
  assert (H : DataNode (meta (snd (WriteShard (opened 3 [] []) 7 [p1; p2]))) 3
              = ({| sm_store := cluster; sm_errs := [] |}, (None, None)))
    by reflexivity.
  split; [exact H|].
  destruct (SendWrite_inactive_EOF
              (snd (WriteShard (opened 3 [] []) 7 [p1; p2])) _ cluster 3 H)
    as [Hs [_ [_ [Hiff _]]]].
  split; [now rewrite Hs|].
  destruct (dataNode cluster 3) as [ni |] eqn:Hd; [|reflexivity].
  destruct (proj1 Hiff (ex_intro _ ni eq_refl)) as [d [Hin Hid]].
  cbn in Hin. destruct Hin as [<- | [<- | []]]; discriminate Hid.
Defined.

(** The corrupt block at the head of [poisoned] is counted and passed over;
    the block behind it is the head afterwards. *)
Lemma SendWrite_decode_error_advances_witness :
  exists n', SendWrite poisoned = (Ret (3, None), n')
    /\ WriteNodeReqFail (stats n') = 1
    /\ option_map (fun q => fst (snd (current q))) (queue n')
       = Some (BigEndian.bytes8 7 ++ p1 ++ [10])
    /\ calls n' = [CallDataNode 1; CallCurrent; CallAdvance].
Proof.
  edestruct (SendWrite_decode_error_advances poisoned) with (fuel := O)
    (currInterval := 100 * ms)
    as [n' [Hs [_ [Hst [Hq [Hc _]]]]]];
    [ lazy; reflexivity | lazy; reflexivity | lazy; reflexivity
    | lazy; reflexivity | reflexivity | reflexivity | lazy; reflexivity | ].
  exists n'. split; [exact Hs|].
  split; [apply Hst; vm_compute; split; [discriminate | reflexivity]|].
  split; [now rewrite Hq | exact Hc].
Defined.


(** Purge of the processor of /hh/1, open and closed; /hh/10 is another
    directory and stays. *)
Lemma Purge_open_fails_closed_removes_witness :
  fst (Purge (opened 1 [] [])) = Some (Errorf "node processor is open")
  /\ fs (snd (Purge (opened 1 [] []))) = tree
  /\ fst (Purge (processor 1 [] [])) = None
  /\ fs_lookup (fs (snd (Purge (processor 1 [] [])))) "/hh/1" = None
  /\ ~ In ("/hh/1/1"%string, File) (fs (snd (Purge (processor 1 [] []))))
  /\ In ("/hh/10/1"%string, File) (fs (snd (Purge (processor 1 [] [])))).
Proof.
  destruct (Purge_open_fails_closed_removes (opened 1 [] [])) as [Hopen _].
  destruct (Purge_open_fails_closed_removes (processor 1 [] []))
    as [_ Hclosed].
  rewrite (Hopen 0%nat eq_refl).
  destruct (Hclosed eq_refl) as [n' [Hp [Hl [Hin _]]]]. rewrite Hp.
  cbn [fst snd].
  split; [reflexivity|]. split; [reflexivity|]. split; [reflexivity|].
  split; [exact Hl|]. split.
  - intros H. apply Hin in H. destruct H as [_ H]. discriminate H.
  - apply Hin. split; [|reflexivity]. cbn. auto 10.
Defined.

(** Open twice and Close twice on the processor of scenario 1. *)
Lemma Open_Close_idempotent_witness :
  Open (opened 1 [] []) = (None, opened 1 [] [])
  /\ Close (snd (Close (opened 1 [] [])))
     = (Ret None, snd (Close (opened 1 [] [])))
  /\ done (opened 1 [] []) = Some 0%nat
  /\ wg (opened 1 [] []) = 1.
Proof.
  destruct (Open_Close_idempotent (processor 1 [] [])) as [Ho [_ Hfirst]].
  destruct (Open_Close_idempotent (opened 1 [] [])) as [_ [Hc _]].
  assert (H0 : done (processor 1 [] []) = None) by reflexivity.
  assert (H1 : fst (Open (processor 1 [] [])) = None)
    by (vm_compute; reflexivity).
  destruct (Hfirst H0 H1) as [q [Hd [_ Hwg]]].
  split; [exact Ho|]. split; [exact Hc|]. split; [exact Hd|].
  unfold opened. rewrite Hwg. reflexivity.
Defined.

End ScenarioFacts.

(** ** More on the framing of blocks *)

Lemma uint64_range (x : Z) : 0 <= uint64 x < 2 ^ 64.
Proof. unfold uint64. apply Z.mod_pos_bound. lia. Qed.

Lemma lor_range64 (a b : Z) :
  0 <= a < 2 ^ 64 -> 0 <= b < 2 ^ 64 -> 0 <= Z.lor a b < 2 ^ 64.
Proof.
  intros Ha Hb.
  rewrite <- (Z.mod_small a (2 ^ 64)), <- (Z.mod_small b (2 ^ 64)) by assumption.
  rewrite <- !Z.land_ones, <- Z.land_lor_distr_l, Z.land_ones by lia.
  apply Z.mod_pos_bound. lia.
Qed.

Lemma Ret_inj {A : Type} (a b : A) : Ret a = Ret b -> a = b.
Proof. congruence. Qed.

Lemma Uint64_range (b : bytes) (v : Z) :
  BigEndian.Uint64 b = Ret v -> 0 <= v < 2 ^ 64.
Proof.
  destruct b as [| b0 [| b1 [| b2 [| b3 [| b4 [| b5 [| b6 [| b7 b]]]]]]]];
    try discriminate.
  cbv beta iota delta [BigEndian.Uint64]. intros H. apply Ret_inj in H.
  subst v. repeat apply lor_range64; apply uint64_range.
Qed.

Lemma testbit_byte_high (b m : Z) : 0 <= b < 256 -> 8 <= m -> Z.testbit b m = false.
Proof.
  intros Hb Hm. rewrite <- (Z.mod_small b (2 ^ 8)) by (change (2 ^ 8) with 256; lia).
  apply Z.mod_pow2_bits_high. lia.
Qed.

Lemma testbit_shifted_byte (b k n : Z) :
  0 <= b < 256 -> 0 <= k -> 0 <= n ->
  Z.testbit (Z.shiftl b k) n
  = ((k <=? n) && (n <? k + 8) && Z.testbit b (n - k))%bool.
Proof.
  intros Hb Hk Hn. rewrite Z.shiftl_spec by assumption.
  destruct (Z.leb_spec k n) as [Hle | Hlt]; cbn [andb].
  - destruct (Z.ltb_spec n (k + 8)) as [Hlt | Hge]; cbn [andb]; [reflexivity|].
    apply testbit_byte_high; [assumption | lia].
  - apply Z.testbit_neg_r. lia.
Qed.

Lemma uint64_shifted_byte (b k : Z) :
  0 <= b < 256 -> 0 <= k <= 56 -> uint64 (Z.shiftl b k) = Z.shiftl b k.
Proof.
  intros Hb Hk. apply uint64_small. rewrite Z.shiftl_mul_pow2 by lia.
  assert (H2 : 0 < 2 ^ k <= 2 ^ 56).
  { split; [apply Z.pow_pos_nonneg; lia | apply Z.pow_le_mono_r; lia]. }
  change (2 ^ 56) with 72057594037927936 in H2.
  change (2 ^ 64) with 18446744073709551616. nia.
Qed.

(** Writing out the value read from eight bytes gives the bytes. *)
Lemma bytes8_Uint64 (b0 b1 b2 b3 b4 b5 b6 b7 v : Z) (rest : bytes) :
  (forall x, In x [b0; b1; b2; b3; b4; b5; b6; b7] -> 0 <= x < 256) ->
  BigEndian.Uint64 (b0 :: b1 :: b2 :: b3 :: b4 :: b5 :: b6 :: b7 :: rest) = Ret v ->
  BigEndian.bytes8 v = [b0; b1; b2; b3; b4; b5; b6; b7].
Proof.
  intros Hb. cbv beta iota delta [BigEndian.Uint64]. intros H.
  apply Ret_inj in H. subst v.
  assert (H0 : 0 <= b0 < 256) by (apply Hb; cbn; auto 10).
  assert (H1 : 0 <= b1 < 256) by (apply Hb; cbn; auto 10).
  assert (H2 : 0 <= b2 < 256) by (apply Hb; cbn; auto 10).
  assert (H3 : 0 <= b3 < 256) by (apply Hb; cbn; auto 10).
  assert (H4 : 0 <= b4 < 256) by (apply Hb; cbn; auto 10).
  assert (H5 : 0 <= b5 < 256) by (apply Hb; cbn; auto 10).
  assert (H6 : 0 <= b6 < 256) by (apply Hb; cbn; auto 10).
  assert (H7 : 0 <= b7 < 256) by (apply Hb; cbn; auto 10).
  clear Hb.
  replace (uint64 b7) with (uint64 (Z.shiftl b7 0)) by (now rewrite Z.shiftl_0_r).
  rewrite !uint64_shifted_byte by lia.
  set (V := Z.lor _ _).
  assert (Hbit : forall k b m, 0 <= k -> 0 <= m ->
            (forall n, k <= n < k + 8 -> Z.testbit V n = Z.testbit b (n - k))
            -> 0 <= b < 256 ->
            Z.testbit (byte_of (Z.shiftr V k)) m = Z.testbit b m).
  { intros k b m Hk Hm HVb Hr. unfold byte_of.
    rewrite Z.land_spec, Z.shiftr_spec by assumption.
    change 255 with (Z.ones 8). rewrite Z.testbit_ones_nonneg by lia.
    destruct (Z.ltb_spec m 8) as [Hlt | Hge].
    - rewrite andb_true_r, HVb by lia. f_equal. lia.
    - rewrite andb_false_r. symmetry. now apply testbit_byte_high. }
  assert (HV : forall n, 0 <= n ->
            Z.testbit V n
            = (((0 <=? n) && (n <? 0 + 8) && Z.testbit b7 (n - 0))
               || (((8 <=? n) && (n <? 8 + 8) && Z.testbit b6 (n - 8))
               || (((16 <=? n) && (n <? 16 + 8) && Z.testbit b5 (n - 16))
               || (((24 <=? n) && (n <? 24 + 8) && Z.testbit b4 (n - 24))
               || (((32 <=? n) && (n <? 32 + 8) && Z.testbit b3 (n - 32))
               || (((40 <=? n) && (n <? 40 + 8) && Z.testbit b2 (n - 40))
               || (((48 <=? n) && (n <? 48 + 8) && Z.testbit b1 (n - 48))
               || ((56 <=? n) && (n <? 56 + 8) && Z.testbit b0 (n - 56)))))))))%bool).
  { intros n Hn. unfold V.
    rewrite !Z.lor_spec, !testbit_shifted_byte by lia. reflexivity. }
  unfold BigEndian.bytes8.
  replace (byte_of V) with (byte_of (Z.shiftr V 0)) by (now rewrite Z.shiftr_0_r).
  repeat f_equal; apply Z.bits_inj'; intros m Hm; apply Hbit;
    try lia; try assumption; intros n Hr;
    rewrite (HV n) by lia;
    decide_cmp; cbn [andb orb]; rewrite ?orb_false_r; reflexivity.
Qed.

Section FramingMore.
Context {codec : PointCodec}.

Lemma framed_app (a b : list Point) : framed (a ++ b) = framed a ++ framed b.
Proof.
  unfold framed. now rewrite filter_app, flat_map_app.
Qed.

(** X1. Marshalling the shard ID that unmarshalWrite read gives the header
    back: for a block of at least 8 bytes whose first 8 are well-formed
    bytes, marshalWrite of the decoded shard ID and no points is the first 8
    bytes of the block, whatever the point parser made of the rest. *)
Theorem marshalWrite_restores_header (b : bytes) (shardID : Z)
    (points : list Point) (err : option error) :
  (forall x, In x (firstn 8 b) -> 0 <= x < 256) ->
  8 <= len b ->
  unmarshalWrite b = Ret (shardID, points, err) ->
  marshalWrite shardID [] = Ret (firstn 8 b).
Proof.
  intros Hb Hlen Hu. rewrite marshalWrite_eq.
  change (framed []) with (@nil byte). rewrite app_nil_r. f_equal.
  unfold unmarshalWrite in Hu.
  replace (len b <? 8) with false in Hu by (symmetry; apply Z.ltb_ge; lia).
  destruct b as [| b0 [| b1 [| b2 [| b3 [| b4 [| b5 [| b6 [| b7 b]]]]]]]];
    try (unfold len in Hlen; cbn in Hlen; lia).
  unfold slice_to, slice_from in Hu.
  change (List.length _ <? 8)%nat with false in Hu. cbv iota in Hu.
  cbn [firstn skipn] in *.
  destruct (BigEndian.Uint64 [b0; b1; b2; b3; b4; b5; b6; b7])
    as [v | |] eqn:Hv; try discriminate.
  destruct (ParsePoints b) as [pts e]. injection Hu as -> _ _.
  exact (bytes8_Uint64 _ _ _ _ _ _ _ _ _ _ Hb Hv).
Qed.

(** X2. The block of a batch followed by more points is the block of the
    batch followed by the frames of the further points, and a block has 8
    bytes more than its frames. *)
Theorem marshalWrite_app (shardID : Z) (a b : list Point) :
  exists blockA,
    marshalWrite shardID a = Ret blockA
    /\ marshalWrite shardID (a ++ b) = Ret (blockA ++ framed b)
    /\ len blockA = 8 + len (framed a).
Proof.
  exists (BigEndian.bytes8 shardID ++ framed a).
  rewrite !marshalWrite_eq, framed_app, app_assoc.
  repeat split. apply len_bytes8_app.
Qed.

(** X3. Blocks tell shard IDs apart: two batches with the same block have
    the same shard ID and the same frames. *)
Theorem marshalWrite_injective (s1 s2 : Z) (p1 p2 : list Point) :
  0 <= s1 < 2 ^ 64 -> 0 <= s2 < 2 ^ 64 ->
  marshalWrite s1 p1 = marshalWrite s2 p2 ->
  s1 = s2 /\ framed p1 = framed p2.
Proof.
  intros H1 H2 H. rewrite !marshalWrite_eq in H. apply Ret_inj in H.
  pose proof (Uint64_bytes8 s1 (framed p1) H1) as U1.
  pose proof (Uint64_bytes8 s2 (framed p2) H2) as U2.
  rewrite H in U1. rewrite U2 in U1. apply Ret_inj in U1. subst s2.
  split; [reflexivity|]. now apply app_inv_head in H.
Qed.

(** X4. Whatever the bytes, the shard ID that unmarshalWrite returns is a
    64-bit unsigned value. *)
Theorem unmarshalWrite_shardID_range (b : bytes) (shardID : Z)
    (points : list Point) (err : option error) :
  unmarshalWrite b = Ret (shardID, points, err) ->
  0 <= shardID < 2 ^ 64.
Proof.
  unfold unmarshalWrite. destruct (len b <? 8).
  - intros H. injection H as <- _ _. lia.
  - unfold slice_to, slice_from.
    destruct (List.length b <? 8)%nat; [discriminate|].
    destruct (BigEndian.Uint64 (firstn 8 b)) as [v | |] eqn:Hv;
      try discriminate.
    destruct (ParsePoints (skipn 8 b)) as [pts e]. intros H.
    injection H as <- _ _. now apply Uint64_range in Hv.
Qed.

End FramingMore.

(** ** More on the store lookups *)

Module MetaStoreFacts.
Import MetaStore.

(** X5. The NodeInfo that [dataNode] returns is a copy of the first data
    node of the list with the id asked for: no node before it has that id. *)
Theorem dataNode_first_match (s : store) (id : Z) (ni : NodeInfo) :
  dataNode s id = Some ni ->
  exists before d after,
    DataNodes s = before ++ d :: after
    /\ (forall x, In x before -> influxmeta.ID x <> id)
    /\ influxmeta.ID d = id
    /\ ni = addressOf d.
Proof.
  unfold dataNode. induction (DataNodes s) as [| d nodes IH]; cbn [dataNode_loop];
    [discriminate|].
  destruct (Z.eqb_spec (influxmeta.ID d) id) as [Heq | Hne].
  - intros H. injection H as <-. exists [], d, nodes.
    repeat split; auto; intros x [].
  - intros H. destruct (IH H) as [before [d' [after [-> [Hb [Hid Hni]]]]]].
    exists (d :: before), d', after.
    repeat split; auto; intros x [<- | Hx]; auto.
Qed.

Lemma dataNodeByTCPHost_empty (s : t) : dataNodeByTCPHost s "" = None.
Proof.
  unfold dataNodeByTCPHost.
  induction (DataNodes (data s)) as [| d nodes IH]; [reflexivity | exact IH].
Qed.

(** X6. [dataNodeByTCPHost] finds nothing for the empty address, whatever
    the data nodes; what it returns for another address is a copy of a data
    node with that TCP address, and it returns one whenever there is one. *)
Theorem dataNodeByTCPHost_spec (s : t) (tcpHost : string) :
  dataNodeByTCPHost s "" = None
  /\ (forall ni, dataNodeByTCPHost s tcpHost = Some ni ->
        tcpHost <> ""%string /\ TCPHost ni = tcpHost
        /\ exists d, In d (DataNodes (data s)) /\ ni = addressOf d)
  /\ (tcpHost <> ""%string ->
      (exists d, In d (DataNodes (data s)) /\ influxmeta.TCPHost d = tcpHost) ->
      exists ni, dataNodeByTCPHost s tcpHost = Some ni).
Proof.
  split; [apply dataNodeByTCPHost_empty|]. unfold dataNodeByTCPHost. split.
  - intros ni. induction (DataNodes (data s)) as [| d nodes IH];
      cbn [dataNodeByTCPHost_loop]; [discriminate|].
    destruct (String.eqb_spec tcpHost "") as [-> | Hne]; cbn [negb andb].
    + intros H. destruct (IH H) as [Hc _]. now contradiction Hc.
    + destruct (String.eqb_spec (influxmeta.TCPHost d) tcpHost) as [Heq | Hd].
      * intros H. injection H as <-. repeat split; auto. exists d. cbn. auto.
      * intros H. destruct (IH H) as [_ [Ht [d' [Hin Hni]]]].
        repeat split; auto. exists d'. cbn. auto.
  - intros Hne [d [Hin Hd]].
    induction (DataNodes (data s)) as [| d' nodes IH]; [destruct Hin|].
    cbn [dataNodeByTCPHost_loop].
    destruct (String.eqb_spec tcpHost "") as [-> | _]; [now contradiction Hne|].
    cbn [negb andb].
    destruct (String.eqb_spec (influxmeta.TCPHost d') tcpHost) as [_ | Hd'];
      [eauto|].
    destruct Hin as [-> | Hin]; [now contradiction Hd' | auto].
Qed.

(** X7. [nodeByHTTPAddr] returns either a copy of a meta node whose host is
    the address and no error, or no node and node-not-found, the latter
    exactly when no meta node has that host. *)
Theorem nodeByHTTPAddr_spec (s : t) (addr : string) :
  (exists ni d, nodeByHTTPAddr s addr = (Some ni, None)
     /\ In d (MetaNodes s) /\ ni = addressOf d /\ Host ni = addr)
  \/ (nodeByHTTPAddr s addr = (None, Some ErrNodeNotFound)
      /\ forall d, In d (MetaNodes s) -> influxmeta.Host d <> addr).
Proof.
  unfold nodeByHTTPAddr. induction (MetaNodes s) as [| d nodes IH];
    cbn [nodeByHTTPAddr_loop].
  - right. split; [reflexivity|]. intros d [].
  - destruct (String.eqb_spec (influxmeta.Host d) addr) as [Heq | Hne].
    + left. exists (addressOf d), d. cbn. auto.
    + destruct IH as [[ni [d' [H [Hin [Hni Hh]]]]] | [H Hnone]].
      * left. exists ni, d'. cbn. auto.
      * right. split; [assumption|]. intros x [<- | Hx]; auto.
Qed.

Lemma otherMetaServersHTTP_loop_acc (nodes : list influxmeta.NodeInfo)
    (addr : string) (a : list string) :
  otherMetaServersHTTP_loop nodes addr a
  = a ++ map influxmeta.Host
           (filter (fun n => negb (String.eqb (influxmeta.TCPHost n) addr)) nodes).
Proof.
  revert a. induction nodes as [| n nodes IH]; intros a;
    cbn [otherMetaServersHTTP_loop filter map].
  - now rewrite app_nil_r.
  - destruct (negb (String.eqb (influxmeta.TCPHost n) addr)); rewrite IH.
    + cbn [map]. now rewrite <- app_assoc.
    + reflexivity.
Qed.

(** X8. [otherMetaServersHTTP] lists, in the order of the meta nodes, the
    hosts of those whose TCP address is not the store's raft address: a host
    is listed exactly when such a meta node has it. *)
Theorem otherMetaServersHTTP_spec (s : t) :
  otherMetaServersHTTP s
  = map influxmeta.Host
        (filter (fun n => negb (String.eqb (influxmeta.TCPHost n) (raftAddr s)))
                (MetaNodes s))
  /\ (forall h, In h (otherMetaServersHTTP s)
        <-> exists n, In n (MetaNodes s) /\ influxmeta.Host n = h
                      /\ influxmeta.TCPHost n <> raftAddr s)
  /\ (List.length (otherMetaServersHTTP s) <= List.length (MetaNodes s))%nat.
Proof.
  unfold otherMetaServersHTTP. rewrite otherMetaServersHTTP_loop_acc.
  cbn [app]. split; [reflexivity | split].
  - intros h. rewrite in_map_iff. split.
    + intros [n [Hh Hin]]. apply filter_In in Hin as [Hin Hn].
      exists n. repeat split; auto.
      apply negb_true_iff in Hn. now apply String.eqb_neq in Hn.
    + intros [n [Hin [Hh Hn]]]. exists n. split; [assumption|].
      apply filter_In. split; [assumption|].
      apply negb_true_iff. now apply String.eqb_neq.
  - rewrite length_map. apply filter_length_le.
Qed.

(** X9. A host that [leaderHTTP] returns is the host of a meta node whose
    TCP address is what [leader] returns; without a raft state the answer is
    the empty string. *)
Theorem leaderHTTP_is_leader_host (s : t) (h : string) :
  (raftSt s = None -> leaderHTTP s = Ret ""%string)
  /\ (leaderHTTP s = Ret h -> h <> ""%string ->
      exists n, In n (MetaNodes s) /\ influxmeta.Host n = h
                /\ influxmeta.TCPHost n = leader s).
Proof.
  unfold leaderHTTP, leader. split.
  - intros ->. reflexivity.
  - destruct (raftSt s) as [[[l |]] |]; try discriminate.
    + intros H Hh. apply Ret_inj in H. subst h.
      induction (MetaNodes s) as [| n nodes IH]; cbn [leaderHTTP_loop] in *;
        [now contradiction Hh|].
      destruct (String.eqb_spec (influxmeta.TCPHost n) l) as [Heq | Hne].
      * exists n. cbn. auto.
      * destruct (IH Hh) as [n' [Hin [Hhost Hl]]]. exists n'. cbn. auto.
    + intros H Hh. apply Ret_inj in H. now contradiction Hh.
Qed.

Section CommandFacts.
Variable encodeUpdateDataNode :
  Z -> string -> string -> outcome (bytes * option error).
Variable raftApply : t -> bytes -> t * option error.

(** X10. [updateDataNode] with an empty TCP address never reports success:
    even when the command is applied, the lookup that follows finds no node
    and the answer is node-not-found.  On a store without a raft state the
    command is not applied and the answer is store-not-open. *)
Theorem updateDataNode_empty_tcpHost (s : t) (id : Z) (host : string) :
  fst (updateDataNode encodeUpdateDataNode raftApply s id host "") <> Ret None
  /\ (forall b s', encodeUpdateDataNode id host "" = Ret (b, None) ->
        apply raftApply s b = (s', None) ->
        updateDataNode encodeUpdateDataNode raftApply s id host ""
        = (Ret (Some ErrNodeNotFound), s'))
  /\ (forall b tcpHost, raftSt s = None ->
        encodeUpdateDataNode id host tcpHost = Ret (b, None) ->
        updateDataNode encodeUpdateDataNode raftApply s id host tcpHost
        = (Ret (Some (Errorf "store not open")), s)).
Proof.
  unfold updateDataNode. split; [| split].
  - destruct (encodeUpdateDataNode id host "") as [[b [e |]] | |];
      cbn [fst]; try discriminate.
    destruct (apply raftApply s b) as [s' [e |]]; cbn [fst]; [discriminate|].
    rewrite dataNodeByTCPHost_empty. cbn [fst]. discriminate.
  - intros b s' -> ->. now rewrite dataNodeByTCPHost_empty.
  - intros b tcpHost Hr ->. unfold apply. now rewrite Hr.
Qed.

End CommandFacts.

Section FilterAddrFacts.
Variable SplitHostPort : string -> (string * string) * option error.
Variable ResolveIPAddr : string -> string * option error.

Lemma filterAddr_loop_spec (addrs : list string) (ip port : string)
    (acc peers : list string) (err : option error) :
  filterAddr_loop SplitHostPort ResolveIPAddr addrs ip port acc = (peers, err) ->
  match err with
  | None =>
      peers
      = acc ++ filter
                 (fun a =>
                    negb (String.eqb ip
                            (fst (ResolveIPAddr (fst (fst (SplitHostPort a)))))
                          && String.eqb port (snd (fst (SplitHostPort a)))))
                 addrs
      /\ forallb (resolves SplitHostPort ResolveIPAddr) addrs = true
  | Some _ =>
      peers = []
      /\ forallb (resolves SplitHostPort ResolveIPAddr) addrs = false
  end.
Proof.
  revert acc. induction addrs as [| a addrs IH]; intros acc;
    cbn [filterAddr_loop filter forallb].
  - intros H. injection H as <- <-. now rewrite app_nil_r.
  - unfold resolves at 1 3.
    destruct (SplitHostPort a) as [[jh jp] [e |]]; cbn [fst snd].
    + intros H. injection H as <- <-. auto.
    + destruct (ResolveIPAddr jh) as [jip [e |]]; cbn [fst snd].
      * intros H. injection H as <- <-. auto.
      * cbn [andb].
        destruct (String.eqb ip jip && String.eqb port jp); cbn [negb];
          intros H; apply IH in H; destruct err; auto.
        destruct H as [-> Hall]. split; [|assumption].
        now rewrite <- app_assoc.
Qed.

(** X11. When [filterAddr] returns without error, every address given
    splits and resolves and the result is the given addresses, in order,
    without those that name the host and port of the filter; when it returns
    an error the list is nil, and some address, or the filter, did not split
    or resolve. *)
Theorem filterAddr_spec (addrs : list string) (filter : string)
    (peers : list string) (err : option error) :
  filterAddr SplitHostPort ResolveIPAddr addrs filter = (peers, err) ->
  match err with
  | None =>
      peers = List.filter
                (fun a => negb (isSelf SplitHostPort ResolveIPAddr filter a))
                addrs
      /\ forallb (resolves SplitHostPort ResolveIPAddr) addrs = true
      /\ resolves SplitHostPort ResolveIPAddr filter = true
  | Some _ =>
      peers = []
      /\ forallb (resolves SplitHostPort ResolveIPAddr) (filter :: addrs)
         = false
  end.
Proof.
  unfold filterAddr, isSelf. cbn [forallb].
  assert (Hres : resolves SplitHostPort ResolveIPAddr filter
                 = match SplitHostPort filter with
                   | (_, Some _) => false
                   | ((h, _), None) =>
                       match ResolveIPAddr h with
                       | (_, Some _) => false
                       | (_, None) => true
                       end
                   end) by reflexivity.
  rewrite Hres. clear Hres.
  destruct (SplitHostPort filter) as [[host port] [e |]]; cbn [fst snd].
  - intros H. injection H as <- <-. auto.
  - destruct (ResolveIPAddr host) as [ip [e |]]; cbn [fst snd].
    + intros H. injection H as <- <-. auto.
    + intros H. apply filterAddr_loop_spec in H. destruct err.
      * destruct H as [-> Hall]. auto.
      * destruct H as [-> Hall]. cbn [app]. repeat split; [|assumption].
        apply filter_ext. intros a.
        now destruct (SplitHostPort a) as [[jh jp] e].
Qed.

End FilterAddrFacts.

End MetaStoreFacts.

(** ** The task list *)

Module TasksFacts.
Import Tasks.

Lemma length_assign (t : tasks) (i : nat) (v : Z) :
  List.length (assign t i v) = List.length t.
Proof.
  revert i. induction t as [| x t IH]; intros [| i]; cbn [assign List.length];
    auto.
Qed.

Lemma nth_assign (t : tasks) (i k : nat) (v : Z) :
  (i < List.length t)%nat ->
  nth k (assign t i v) 0 = if (k =? i)%nat then v else nth k t 0.
Proof.
  revert i k. induction t as [| x t IH]; intros i k Hi; cbn [List.length] in Hi;
    [lia|].
  destruct i as [| i], k as [| k]; cbn [assign nth Nat.eqb]; auto.
  apply IH. lia.
Qed.

Lemma index_in_range (t : tasks) (i : Z) :
  0 <= i < Len t -> index t i = Ret (nth (Z.to_nat i) t 0).
Proof.
  intros Hi. unfold index, Len in *.
  replace (i <? 0) with false by (symmetry; apply Z.ltb_ge; lia).
  replace (len t <=? i) with false by (symmetry; apply Z.leb_gt; lia).
  reflexivity.
Qed.

Lemma index_out_of_range (t : tasks) (i : Z) :
  i < 0 \/ Len t <= i -> index t i = Panic.
Proof.
  intros Hi. unfold index, Len in *.
  destruct (Z.ltb_spec i 0); [reflexivity|].
  destruct (Z.leb_spec (len t) i); [reflexivity | lia].
Qed.

Lemma Swap_in_range (t : tasks) (i j : Z) :
  0 <= i < Len t -> 0 <= j < Len t ->
  exists t',
    Swap t i j = Ret t'
    /\ Len t' = Len t
    /\ index t' j = index t i
    /\ index t' i = index t j
    /\ (forall k, k <> i -> k <> j -> index t' k = index t k)
    /\ Swap t' i j = Ret t.
Proof.
  intros Hi Hj.
  set (t' := assign (assign t (Z.to_nat i) (nth (Z.to_nat j) t 0))
                    (Z.to_nat j) (nth (Z.to_nat i) t 0)).
  assert (Hs : Swap t i j = Ret t').
  { unfold Swap. now rewrite !index_in_range by assumption. }
  assert (Hlen : Len t' = Len t).
  { unfold Len, len, t'. now rewrite !length_assign. }
  assert (Hni : (Z.to_nat i < List.length t)%nat) by (unfold Len, len in Hi; lia).
  assert (Hnj : (Z.to_nat j < List.length t)%nat) by (unfold Len, len in Hj; lia).
  assert (Hnth : forall k,
            nth k t' 0
            = if (k =? Z.to_nat j)%nat then nth (Z.to_nat i) t 0
              else if (k =? Z.to_nat i)%nat then nth (Z.to_nat j) t 0
              else nth k t 0).
  { intros k. unfold t'. rewrite nth_assign by (now rewrite length_assign).
    destruct (k =? Z.to_nat j)%nat; [reflexivity|]. now apply nth_assign. }
  exists t'. split; [exact Hs|]. split; [exact Hlen|].
  split; [| split; [| split]].
  - rewrite !index_in_range by (rewrite ?Hlen; assumption).
    now rewrite Hnth, Nat.eqb_refl.
  - rewrite !index_in_range by (rewrite ?Hlen; assumption).
    rewrite Hnth, Nat.eqb_refl.
    destruct (Nat.eqb_spec (Z.to_nat i) (Z.to_nat j)) as [-> |]; reflexivity.
  - intros k Hki Hkj. unfold index. change (len t') with (Len t').
    rewrite Hlen. unfold Len.
    destruct ((k <? 0) || (len t <=? k)) eqn:Hk; [reflexivity|].
    apply orb_false_iff in Hk as [Hk0 Hk1].
    apply Z.ltb_ge in Hk0. apply Z.leb_gt in Hk1.
    rewrite Hnth.
    replace (Z.to_nat k =? Z.to_nat j)%nat with false
      by (symmetry; apply Nat.eqb_neq; lia).
    replace (Z.to_nat k =? Z.to_nat i)%nat with false
      by (symmetry; apply Nat.eqb_neq; lia).
    reflexivity.
  - unfold Swap. rewrite !index_in_range by (rewrite ?Hlen; assumption).
    assert (Hl' : List.length t' = List.length t)
      by (unfold t'; now rewrite !length_assign).
    f_equal. apply nth_ext with (d := 0) (d' := 0).
    + now rewrite !length_assign.
    + intros k _.
      rewrite nth_assign by (rewrite !length_assign, Hl'; assumption).
      rewrite nth_assign by (rewrite Hl'; assumption).
      rewrite !Hnth, !Nat.eqb_refl.
      destruct (Nat.eqb_spec k (Z.to_nat j)) as [Hkj | Hkj];
        destruct (Nat.eqb_spec k (Z.to_nat i)) as [Hki | Hki];
        destruct (Nat.eqb_spec (Z.to_nat i) (Z.to_nat j)) as [Hij | Hij];
        destruct (Nat.eqb_spec (Z.to_nat j) (Z.to_nat i)) as [Hji | Hji];
        congruence.
Qed.

(** X12. With both indexes inside the slice [Swap] returns a slice of the
    same length that holds the old element [i] at [j], the old element [j]
    at [i] and every other element where it was, and a second [Swap] of the
    same indexes gives the first slice back. *)
Theorem Swap_exchanges (t : tasks) (i j : Z) :
  0 <= i < Len t -> 0 <= j < Len t ->
  exists t',
    Swap t i j = Ret t'
    /\ Len t' = Len t
    /\ index t' j = index t i
    /\ index t' i = index t j
    /\ (forall k, k <> i -> k <> j -> index t' k = index t k)
    /\ Swap t' i j = Ret t.
Proof. apply Swap_in_range. Qed.

(** X13. [Swap] and [Less] panic on an index outside the slice, and on
    indexes inside it [Less] after [Swap] is [Less] with the indexes
    exchanged. *)
Theorem Less_after_Swap (t : tasks) (i j : Z) :
  (i < 0 \/ Len t <= i \/ j < 0 \/ Len t <= j ->
   Swap t i j = Panic /\ Less t i j = Panic)
  /\ (0 <= i < Len t -> 0 <= j < Len t ->
      exists t', Swap t i j = Ret t' /\ Less t' i j = Less t j i).
Proof.
  split.
  - intros H. unfold Swap, Less.
    assert (Hc : index t i = Panic \/ index t j = Panic).
    { destruct H as [H | [H | [H | H]]];
        [left | left | right | right]; apply index_out_of_range; auto. }
    destruct Hc as [Hc | Hc]; rewrite Hc.
    + split; [now destruct (index t j) | reflexivity].
    + split; [reflexivity | now destruct (index t i)].
  - intros Hi Hj. destruct (Swap_in_range t i j Hi Hj) as [t' [Hs [Hl [Hj' [Hi' _]]]]].
    exists t'. split; [exact Hs|]. unfold Less. now rewrite Hi', Hj'.
Qed.

End TasksFacts.

(** ** More on the processor *)

Lemma fs_lookup_MkdirAll (tree tree' : FS) (path : string) :
  MkdirAll tree path = (tree', None) ->
  fs_lookup tree' path = Some Dir
  /\ (forall e, In e tree -> In e tree').
Proof.
  unfold MkdirAll. destruct (fs_lookup tree path) as [[|] |] eqn:Hl.
  - intros H. injection H as <-. auto.
  - discriminate.
  - intros H. injection H as <-. cbn [fs_lookup].
    rewrite String.eqb_refl. split; [reflexivity|]. intros e He. now right.
Qed.

Section ProcessorMore.
Context {codec : PointCodec} {qi : QueueImpl} {mc : MetaClient}
        {sw : ShardWriter}.

Ltac fields :=
  cbn [cfg nodeID dir done wg queue meta writer stats Logger fs calls nextChan
       set_done set_wg set_queue set_meta set_writer set_stats set_fs
       set_nextChan Printf record fst snd negb orb] in *.

Lemma Close_frame (n : NodeProcessor) :
  dir (snd (Close n)) = dir n /\ fs (snd (Close n)) = fs n
  /\ cfg (snd (Close n)) = cfg n.
Proof.
  unfold Close. destruct (done n); [|auto].
  fields. destruct (queue n) as [q |]; fields; [|auto].
  destruct (q_Close q) as [q' e]. fields. auto.
Qed.

(** X14. After Close, whatever the processor was: Closed reports true, Empty
    reports false, WriteShard is refused with the closed error and leaves
    the processor as it is, and Purge succeeds and removes the queue
    directory. *)
Theorem after_Close (n : NodeProcessor) (shardID : Z) (points : list Point) :
  Closed (snd (Close n)) = true
  /\ Empty (snd (Close n)) = Ret false
  /\ WriteShard (snd (Close n)) shardID points
     = (Ret (Some (Errorf "node processor is closed")), snd (Close n))
  /\ fst (Purge (snd (Close n))) = None
  /\ fs_lookup (fs (snd (Purge (snd (Close n))))) (dir n) = None.
Proof.
  pose proof (Close_done n) as Hd.
  destruct (Close_frame n) as [Hdir [Hfs _]].
  unfold Closed, Empty, Closed, WriteShard, Purge. rewrite Hd, Hdir, Hfs.
  repeat split. cbn [snd RemoveAll]. fields. apply fs_lookup_RemoveAll.
Qed.

(** X15. Close on an open processor returns what the queue's Close returns
    and leaves the processor closed with no worker, also when that is an
    error; a second Close then returns nil without closing the queue
    again. *)
Theorem Close_returns_queue_error (n : NodeProcessor) (c : nat)
    (q q' : queue_t) (err : option error) :
  done n = Some c ->
  queue n = Some q ->
  q_Close q = (q', err) ->
  exists n',
    Close n = (Ret err, n')
    /\ done n' = None /\ wg n' = 0 /\ queue n' = Some q'
    /\ calls n' = calls n ++ [CallQueueClose]
    /\ Close n' = (Ret None, n').
Proof.
  intros Hd Hq Hc. unfold Close at 1. rewrite Hd. fields. rewrite Hq, Hc.
  eexists. split; [reflexivity|]. fields. repeat split.
Qed.

(** X16. An Open that fails on a closed processor leaves it neither open nor
    closed: no queue is set and no worker started, yet Closed reports false,
    the next Open returns nil without trying again, and Purge is refused. *)
Theorem Open_failure_half_open (n : NodeProcessor) (e : error) :
  done n = None ->
  fst (Open n) = Some e ->
  Closed (snd (Open n)) = false
  /\ queue (snd (Open n)) = queue n
  /\ wg (snd (Open n)) = wg n
  /\ Open (snd (Open n)) = (None, snd (Open n))
  /\ fst (Purge (snd (Open n))) = Some (Errorf "node processor is open").
Proof.
  intros Hd He.
  assert (H : done (snd (Open n)) = Some (nextChan n)
              /\ queue (snd (Open n)) = queue n
              /\ wg (snd (Open n)) = wg n).
  { revert He. unfold Open. rewrite Hd. fields.
    destruct (MkdirAll (fs n) (dir n)) as [fs' [e1 |]]; fields; [auto|].
    destruct (newQueue (dir n) (MaxSize (cfg n))) as [q0 [e1 |]]; fields;
      [auto|].
    destruct (q_Open q0) as [q1 [e1 |]]; fields; [auto | discriminate]. }
  destruct H as [Hdone [Hqueue Hwg]].
  remember (snd (Open n)) as n' eqn:Hn'.
  unfold Closed, Open, Purge. rewrite Hdone. repeat split; assumption.
Qed.

(** X17. An Open that succeeds on a closed processor has made the queue
    directory (every path that was there still is), and the queue it set is
    the one [newQueue] made for that directory and [MaxSize] and then opened;
    writeDiskBytes is that queue's total. *)
Theorem Open_success (n : NodeProcessor) :
  done n = None ->
  fst (Open n) = None ->
  fs_lookup (fs (snd (Open n))) (dir n) = Some Dir
  /\ (forall e, In e (fs n) -> In e (fs (snd (Open n))))
  /\ exists q0 q,
       newQueue (dir n) (MaxSize (cfg n)) = (q0, None)
       /\ q_Open q0 = (q, None)
       /\ queue (snd (Open n)) = Some q
       /\ WriteDiskBytes (stats (snd (Open n))) = q_TotalBytes q.
Proof.
  intros Hd. unfold Open. rewrite Hd. fields.
  destruct (MkdirAll (fs n) (dir n)) as [fs' [e1 |]] eqn:Hmk; fields;
    [discriminate|].
  destruct (newQueue (dir n) (MaxSize (cfg n))) as [q0 [e1 |]]; fields;
    [discriminate|].
  destruct (q_Open q0) as [q1 [e1 |]] eqn:Ho; fields; [discriminate|].
  intros _. destruct (fs_lookup_MkdirAll _ _ _ Hmk) as [Hl Hin].
  split; [exact Hl|]. split; [exact Hin|]. exists q0, q1. auto.
Qed.

(** X18. When the queue refuses the block with an error other than
    ErrNotOpen, WriteShard returns that error; the request and its points
    have been counted all the same, once. *)
Theorem WriteShard_append_error (n : NodeProcessor) (c : nat) (q q1 : queue_t)
    (shardID : Z) (points : list Point) (e : error) :
  done n = Some c ->
  queue n = Some q ->
  q_Append q (BigEndian.bytes8 shardID ++ framed points) = (q1, Some e) ->
  is_ErrNotOpen e = false ->
  exists n',
    WriteShard n shardID points = (Ret (Some e), n')
    /\ WriteShardReq (stats n') = AddInt64 (WriteShardReq (stats n)) 1
    /\ WriteShardReqPoints (stats n')
       = AddInt64 (WriteShardReqPoints (stats n)) (len points)
    /\ queue n' = Some q1.
Proof.
  intros Hd Hq Ha He. unfold WriteShard. rewrite Hd. fields.
  rewrite Hq, marshalWrite_eq.
  replace (len (BigEndian.bytes8 shardID ++ framed points) =? 0) with false.
  - rewrite Ha, He. eexists. split; [reflexivity|]. fields. repeat split.
  - symmetry. apply Z.eqb_neq. rewrite len_bytes8_app.
    pose proof (len_nonneg (framed points)). lia.
Qed.

(** X19. When the queue takes the block, WriteShard returns nil having
    appended one block, the 8 bytes of the shard ID followed by the frames of
    the points that encode; writeShardReq has been counted twice and the
    points once. *)
Theorem WriteShard_success (n : NodeProcessor) (c : nat) (q q1 : queue_t)
    (shardID : Z) (points : list Point) :
  done n = Some c ->
  queue n = Some q ->
  q_Append q (BigEndian.bytes8 shardID ++ framed points) = (q1, None) ->
  exists n',
    WriteShard n shardID points = (Ret None, n')
    /\ queue n' = Some q1
    /\ calls n'
       = calls n ++ [CallAppend (BigEndian.bytes8 shardID ++ framed points)]
    /\ WriteShardReq (stats n')
       = AddInt64 (AddInt64 (WriteShardReq (stats n)) 1) 1
    /\ WriteShardReqPoints (stats n')
       = AddInt64 (WriteShardReqPoints (stats n)) (len points)
    /\ meta n' = meta n /\ writer n' = writer n /\ nodeID n' = nodeID n.
Proof.
  intros Hd Hq Ha. unfold WriteShard. rewrite Hd. fields.
  rewrite Hq, marshalWrite_eq.
  replace (len (BigEndian.bytes8 shardID ++ framed points) =? 0) with false.
  - rewrite Ha. eexists. split; [reflexivity|]. fields. repeat split.
  - symmetry. apply Z.eqb_neq. rewrite len_bytes8_app.
    pose proof (len_nonneg (framed points)). lia.
Qed.

(** X20. An error of the metadata client is what SendWrite returns, whatever
    NodeInfo came with it; the queue is not read and the shard writer not
    called.  The worker's drain loop then returns on node-not-found, breaks
    at RetryInterval on EOF, and on any other error breaks with its interval
    cut down to RetryMaxInterval. *)
Theorem SendWrite_metadata_error (n : NodeProcessor) (m' : metaClient)
    (nio : option NodeInfo) (e : error) (fuel : nat) (currInterval : Z) :
  DataNode (meta n) (nodeID n) = (m', (nio, Some e)) ->
  SendWrite n
  = (Ret (0, Some e), record (CallDataNode (nodeID n)) (set_meta m' n))
  /\ queue (snd (SendWrite n)) = queue n
  /\ writer (snd (SendWrite n)) = writer n
  /\ stats (snd (SendWrite n)) = stats n
  /\ fst (drain (S fuel) currInterval n)
     = if is_EOF e then DrainBreak (RetryInterval (cfg n))
       else if is_ErrNodeNotFound e then DrainReturn
       else DrainBreak (Z.min currInterval (RetryMaxInterval (cfg n))).
Proof.
  intros Hm.
  assert (Hs : SendWrite n
               = (Ret (0, Some e),
                  record (CallDataNode (nodeID n)) (set_meta m' n))).
  { unfold SendWrite, Active. rewrite Hm. reflexivity. }
  cbn [drain]. rewrite Hs. repeat split.
  destruct (is_EOF e); [reflexivity|].
  destruct (is_ErrNodeNotFound e); [reflexivity|]. fields. f_equal.
  destruct (Z.gtb_spec currInterval (RetryMaxInterval (cfg n))); lia.
Qed.

(** X21. An error of the queue's Current (EOF on an empty queue among them)
    is what SendWrite returns on an active node; nothing is decoded, the
    shard writer is not called, no counter moves and nothing is advanced. *)
Theorem SendWrite_queue_error (n : NodeProcessor) (m' : metaClient)
    (ni : NodeInfo) (q q1 : queue_t) (buf : bytes) (e : error) :
  DataNode (meta n) (nodeID n) = (m', (Some ni, None)) ->
  queue n = Some q ->
  q_Current q = (q1, (buf, Some e)) ->
  exists n',
    SendWrite n = (Ret (0, Some e), n')
    /\ queue n' = Some q1
    /\ writer n' = writer n
    /\ stats n' = stats n
    /\ calls n' = calls n ++ [CallDataNode (nodeID n); CallCurrent].
Proof.
  intros Hm Hq Hc. unfold SendWrite, Active. rewrite Hm. fields.
  rewrite Hq, Hc. eexists. split; [reflexivity|]. fields.
  rewrite <- app_assoc. repeat split.
Qed.

(** X22. When the block decodes and the shard writer succeeds, SendWrite
    returns the length of the block and nil, having called the shard writer
    once with the shard ID and points decoded and the processor's node ID,
    counted one writeShardReq, one writeNodeReq and the points, and advanced
    the queue once; an error of Advance is logged and changes nothing
    else. *)
Theorem SendWrite_success (n : NodeProcessor) (m' : metaClient)
    (ni : NodeInfo) (q q1 q2 : queue_t) (buf : bytes) (shardID : Z)
    (points : list Point) (w' : shardWriter) (aerr : option error) :
  DataNode (meta n) (nodeID n) = (m', (Some ni, None)) ->
  queue n = Some q ->
  q_Current q = (q1, (buf, None)) ->
  unmarshalWrite buf = Ret (shardID, points, None) ->
  sw_WriteShard (writer n) shardID (nodeID n) points = (w', None) ->
  q_Advance q1 = (q2, aerr) ->
  exists n',
    SendWrite n = (Ret (len buf, None), n')
    /\ queue n' = Some q2
    /\ writer n' = w'
    /\ stats n'
       = add_WriteNodeReqPoints (len points)
           (add_WriteNodeReq 1 (add_WriteShardReq 1 (stats n)))
    /\ calls n'
       = calls n ++ [CallDataNode (nodeID n); CallCurrent;
                     CallWriteShard shardID (nodeID n) points; CallAdvance]
    /\ Logger n'
       = Logger n
         ++ match aerr with
            | Some e =>
                [("failed to advance queue for node %d: %s"%string, e)]
            | None => []
            end.
Proof.
  intros Hm Hq Hc Hu Hw Ha.
  rewrite (SendWrite_current n m' ni q q1 buf Hm Hq Hc).
  unfold SendWrite_goroutine. rewrite Hu. fields. rewrite Hw.
  unfold SendWrite_receive. fields. rewrite Ha.
  destruct aerr as [ae |]; eexists; (split; [reflexivity|]); fields;
    rewrite <- !app_assoc, ?app_nil_r; repeat split.
Qed.

(** X23. When the shard writer answers node-not-found or EOF, SendWrite
    returns that error with the block still at the head of the queue and no
    counter moved; the worker's drain loop then returns for node-not-found
    and breaks at RetryInterval for EOF. *)
Theorem SendWrite_writer_sentinel (n : NodeProcessor) (m' : metaClient)
    (ni : NodeInfo) (q q1 : queue_t) (buf : bytes) (shardID : Z)
    (points : list Point) (w' : shardWriter) (e : error) (fuel : nat)
    (currInterval : Z) :
  DataNode (meta n) (nodeID n) = (m', (Some ni, None)) ->
  queue n = Some q ->
  q_Current q = (q1, (buf, None)) ->
  unmarshalWrite buf = Ret (shardID, points, None) ->
  sw_WriteShard (writer n) shardID (nodeID n) points = (w', Some e) ->
  is_EOF e || is_ErrNodeNotFound e = true ->
  exists n',
    SendWrite n = (Ret (0, Some e), n')
    /\ queue n' = Some q1
    /\ stats n' = stats n
    /\ calls n'
       = calls n ++ [CallDataNode (nodeID n); CallCurrent;
                     CallWriteShard shardID (nodeID n) points]
    /\ fst (drain (S fuel) currInterval n)
       = if is_EOF e then DrainBreak (RetryInterval (cfg n)) else DrainReturn.
Proof.
  intros Hm Hq Hc Hu Hw He.
  pose proof (SendWrite_current n m' ni q q1 buf Hm Hq Hc) as Hs.
  unfold SendWrite_goroutine in Hs. rewrite Hu in Hs. fields.
  rewrite Hw in Hs. unfold SendWrite_receive in Hs. rewrite He in Hs.
  eexists. split; [exact Hs|]. fields. rewrite <- !app_assoc.
  repeat split. cbn [drain]. rewrite Hs.
  destruct (is_EOF e); [reflexivity|]. cbn [orb] in He. now rewrite He.
Qed.

(** X24. SendWrite never touches the configuration, the node ID, the
    directory name, the done channel or the worker count of the processor,
    whatever the collaborators answer; the calls made and the lines logged
    only grow. *)
Theorem SendWrite_keeps_lifecycle (n : NodeProcessor) :
  cfg (snd (SendWrite n)) = cfg n
  /\ nodeID (snd (SendWrite n)) = nodeID n
  /\ dir (snd (SendWrite n)) = dir n
  /\ done (snd (SendWrite n)) = done n
  /\ wg (snd (SendWrite n)) = wg n
  /\ (exists cs, calls (snd (SendWrite n)) = calls n ++ cs)
  /\ (exists ls, Logger (snd (SendWrite n)) = Logger n ++ ls).
Proof.
  unfold SendWrite, Active, SendWrite_goroutine, SendWrite_receive.
  repeat (match goal with
          | |- context [match ?x with _ => _ end] =>
              lazymatch x with
              | context [match _ with _ => _ end] => fail
              | _ => destruct x
              end
          end; fields);
    rewrite <- ?app_assoc;
    repeat split; try (eexists; reflexivity);
    try (exists []; now rewrite app_nil_r).
Qed.

(** X25. The block that WriteShard appends is the block that SendWrite
    decodes: on an open processor of an active node whose queue hands the
    appended block back, SendWrite reads the shard ID written and gives the
    frames to the point parser.  When the parser reports no error the shard
    writer is called once, with that shard ID, the processor's node ID and
    the points parsed; when it reports an error the shard writer is not
    called and writeNodeReqFail is counted. *)
Theorem written_block_is_decoded (n : NodeProcessor) (c : nat)
    (q q1 q2 q3 : queue_t) (m1 : metaClient) (ni : NodeInfo)
    (w1 : shardWriter) (werr aerr : option error) (shardID : Z)
    (points : list Point) :
  done n = Some c ->
  queue n = Some q ->
  0 <= shardID < 2 ^ 64 ->
  q_Append q (BigEndian.bytes8 shardID ++ framed points) = (q1, None) ->
  DataNode (meta n) (nodeID n) = (m1, (Some ni, None)) ->
  q_Current q1 = (q2, (BigEndian.bytes8 shardID ++ framed points, None)) ->
  sw_WriteShard (writer n) shardID (nodeID n) (fst (ParsePoints (framed points)))
  = (w1, werr) ->
  q_Advance q2 = (q3, aerr) ->
  exists n1 cs,
    WriteShard n shardID points = (Ret None, n1)
    /\ (forall s o p, ~ In (CallWriteShard s o p) cs)
    /\ match snd (ParsePoints (framed points)) with
       | None =>
           calls (snd (SendWrite n1))
           = calls n
             ++ CallAppend (BigEndian.bytes8 shardID ++ framed points)
                :: CallDataNode (nodeID n) :: CallCurrent
                :: CallWriteShard shardID (nodeID n)
                     (fst (ParsePoints (framed points)))
                :: cs
       | Some _ =>
           calls (snd (SendWrite n1))
           = calls n
             ++ CallAppend (BigEndian.bytes8 shardID ++ framed points)
                :: CallDataNode (nodeID n) :: CallCurrent :: cs
           /\ writer (snd (SendWrite n1)) = writer n
           /\ WriteNodeReqFail (stats (snd (SendWrite n1)))
              = AddInt64 (WriteNodeReqFail (stats n)) 1
       end.
Proof.
  intros Hd Hq Hid Happ Hm Hcur Hw Hadv.
  set (block := BigEndian.bytes8 shardID ++ framed points) in *.
  assert (Hlen : (len block =? 0) = false).
  { apply Z.eqb_neq. unfold block. rewrite len_bytes8_app.
    pose proof (len_nonneg (framed points)). lia. }
  assert (H1 : exists n1, WriteShard n shardID points = (Ret None, n1)
             /\ queue n1 = Some q1 /\ meta n1 = meta n /\ writer n1 = writer n
             /\ nodeID n1 = nodeID n
             /\ calls n1 = calls n ++ [CallAppend block]
             /\ WriteNodeReqFail (stats n1) = WriteNodeReqFail (stats n)).
  { unfold WriteShard. rewrite Hd. fields. rewrite Hq, marshalWrite_eq.
    fold block. rewrite Hlen, Happ.
    eexists. split; [reflexivity|]. fields. repeat split. }
  destruct H1 as [n1 [HW [Hq1 [Hm1 [Hw1 [Hid1 [Hc1 Hf1]]]]]]].
  exists n1.
  assert (Hu : unmarshalWrite block
               = Ret (shardID, fst (ParsePoints (framed points)),
                      snd (ParsePoints (framed points)))).
  { unfold block. now apply unmarshalWrite_bytes8. }
  rewrite <- Hm1, <- Hid1 in Hm. rewrite <- Hw1, <- Hid1 in Hw.
  rewrite (SendWrite_current n1 m1 ni q1 q2 block Hm Hq1 Hcur).
  unfold SendWrite_goroutine. rewrite Hu.
  destruct (snd (ParsePoints (framed points))) as [pe |]; fields.
  - unfold SendWrite_receive.
    destruct (is_EOF pe || is_ErrNodeNotFound pe); fields.
    + exists []. split; [exact HW|]. split; [intros s o p []|].
      cbn [add_WriteNodeReqFail WriteNodeReqFail].
      rewrite Hc1, <- !app_assoc, Hw1, Hf1, ?Hid1. repeat split.
    + rewrite Hadv. exists [CallAdvance]. split; [exact HW|].
      split; [intros s o p [H | []]; discriminate H|].
      destruct aerr; fields; cbn [add_WriteNodeReqFail WriteNodeReqFail];
        rewrite Hc1, <- !app_assoc, Hw1, Hf1, ?Hid1; repeat split.
  - rewrite Hw. rewrite Hid1 in *.
    destruct werr as [we |].
    + unfold SendWrite_receive.
      destruct (is_EOF we || is_ErrNodeNotFound we).
      * exists []. split; [exact HW|]. split; [intros s o p []|].
        fields. now rewrite Hc1, <- !app_assoc.
      * fields. rewrite Hadv. exists [CallAdvance]. split; [exact HW|].
        split; [intros s o p [H | []]; discriminate H|].
        destruct aerr; fields; now rewrite Hc1, <- !app_assoc.
    + unfold SendWrite_receive. fields. rewrite Hadv.
      exists [CallAdvance]. split; [exact HW|].
      split; [intros s o p [H | []]; discriminate H|].
      destruct aerr; fields; now rewrite Hc1, <- !app_assoc.
Qed.

Lemma ticker_ok (p ci : Z) :
  0 < p -> 0 < ci -> (p <=? 0) || (ci <=? 0) = false.
Proof.
  intros Hp Hc. apply orb_false_iff. split; apply Z.leb_gt; assumption.
Qed.

Lemma run_initial (n : NodeProcessor) :
  (if RetryInterval (cfg n) >? RetryMaxInterval (cfg n)
   then RetryMaxInterval (cfg n) else RetryInterval (cfg n))
  = Z.min (RetryInterval (cfg n)) (RetryMaxInterval (cfg n)).
Proof.
  destruct (Z.gtb_spec (RetryInterval (cfg n)) (RetryMaxInterval (cfg n))); lia.
Qed.

(** X26. When the metadata client answers node-not-found, the worker
    returns on its first retry tick: it makes its tickers, asks the metadata
    client once, leaves the queue unread and takes none of the later
    ticks. *)
Theorem run_node_not_found (fuel : nat) (ticks : list tick)
    (n : NodeProcessor) (m' : metaClient) (nio : option NodeInfo) :
  0 < PurgeInterval (cfg n) ->
  0 < RetryInterval (cfg n) ->
  0 < RetryMaxInterval (cfg n) ->
  DataNode (meta n) (nodeID n) = (m', (nio, Some ErrNodeNotFound)) ->
  exists n',
    run (S fuel) (TickRetry :: ticks) n = (Returned, n')
    /\ wg n' = wg n - 1
    /\ queue n' = queue n
    /\ calls n'
       = calls n
         ++ [CallNewTicker
               (Z.min (RetryInterval (cfg n)) (RetryMaxInterval (cfg n)));
             CallDataNode (nodeID n)].
Proof.
  intros Hp Hr Hx Hm. unfold run. rewrite run_initial.
  cbn [run_loop]. rewrite ticker_ok by lia.
  cbn [drain]. unfold SendWrite, Active. fields. rewrite Hm.
  cbn [is_EOF is_ErrNodeNotFound]. eexists. split; [reflexivity|].
  fields. rewrite <- app_assoc. repeat split.
Qed.

(** X27. Whatever the ticks and whatever the collaborators answer, every
    retry ticker the worker makes has the interval RetryInterval or
    RetryMaxInterval. *)
Theorem run_retry_intervals (fuel : nat) (ticks : list tick)
    (n : NodeProcessor) (d : Z) :
  calls n = [] ->
  In d (retryDelays (calls (snd (run fuel ticks n)))) ->
  d = RetryInterval (cfg n) \/ d = RetryMaxInterval (cfg n).
Proof.
  intros Hc Hin. apply run_delays_configured in Hin. rewrite Hc in Hin.
  destruct Hin as [[] | Hin]. exact Hin.
Qed.

(** X28. On a node that is not a member the worker reads nothing from the
    queue on a retry tick and waits on with the interval RetryInterval,
    also when that is above RetryMaxInterval. *)
Theorem run_inactive_node (fuel : nat) (n : NodeProcessor)
    (m' : metaClient) :
  0 < PurgeInterval (cfg n) ->
  0 < RetryInterval (cfg n) ->
  0 < RetryMaxInterval (cfg n) ->
  DataNode (meta n) (nodeID n) = (m', (None, None)) ->
  exists n',
    run (S fuel) [TickRetry] n = (Waiting (RetryInterval (cfg n)), n')
    /\ queue n' = queue n
    /\ wg n' = wg n
    /\ calls n'
       = calls n
         ++ [CallNewTicker
               (Z.min (RetryInterval (cfg n)) (RetryMaxInterval (cfg n)));
             CallDataNode (nodeID n)].
Proof.
  intros Hp Hr Hx Hm. unfold run. rewrite run_initial.
  cbn [run_loop]. rewrite ticker_ok by lia.
  cbn [drain]. unfold SendWrite, Active. fields. rewrite Hm.
  cbn [is_EOF negb]. eexists. split; [reflexivity|].
  fields. rewrite <- app_assoc. repeat split.
Qed.

(** X29. On a purge tick the worker asks the queue to purge what is older
    than the time of the tick less MaxAge, logs an error of the purge without
    stopping, and goes on to the next tick with its interval unchanged. *)
Theorem run_purge_tick (fuel : nat) (ticks : list tick) (now : Z)
    (n : NodeProcessor) (q q' : queue_t) (err : option error) :
  0 < PurgeInterval (cfg n) ->
  0 < RetryInterval (cfg n) ->
  0 < RetryMaxInterval (cfg n) ->
  queue n = Some q ->
  q_PurgeOlderThan q (now - MaxAge (cfg n)) = (q', err) ->
  exists n',
    run fuel (TickPurge now :: ticks) n
    = run_loop fuel ticks
        (Z.min (RetryInterval (cfg n)) (RetryMaxInterval (cfg n))) n'
    /\ queue n' = Some q'
    /\ cfg n' = cfg n
    /\ calls n'
       = calls n
         ++ [CallNewTicker
               (Z.min (RetryInterval (cfg n)) (RetryMaxInterval (cfg n)));
             CallPurgeOlderThan (now - MaxAge (cfg n))]
    /\ Logger n'
       = Logger n
         ++ match err with
            | Some e => [("failed to purge for node %d: %s"%string, e)]
            | None => []
            end.
Proof.
  intros Hp Hr Hx Hq Hpu. unfold run. rewrite run_initial.
  cbn [run_loop]. rewrite ticker_ok by lia. fields. rewrite Hq, Hpu.
  destruct err as [e |]; eexists; (split; [reflexivity|]); fields;
    rewrite <- ?app_assoc, ?app_nil_r; repeat split.
Qed.

End ProcessorMore.

(** ** The further theorems at concrete inputs *)

Module MoreFacts.
Import Stub SpecQueue Scenario Scenario2.

Ltac by_running := first [ lazy; reflexivity | vm_compute; reflexivity ].

(** The header of the block of 68 bytes, from the shard ID read back. *)
Lemma marshalWrite_restores_header_witness :
  @marshalWrite BinaryStub.codec 7 [] = Ret [0; 0; 0; 0; 0; 0; 0; 7].
Proof.
  apply (marshalWrite_restores_header (codec := BinaryStub.codec)
           (BigEndian.bytes8 7
              ++ @framed BinaryStub.codec [BinaryStub.cpu; BinaryStub.mem])
           7 [] (Some (Errorf "unable to parse"))).
  - intros x H. vm_compute in H.
    repeat (destruct H as [<- | H]; [lia|]). destruct H.
  - vm_compute. discriminate.
  - vm_compute. reflexivity.
Defined.

(** A point that does not encode changes neither the shard ID read back nor
    the frames. *)
Lemma marshalWrite_injective_witness :
  marshalWrite 7 [p1; p2] = marshalWrite 7 [p1; bad; p2]
  /\ 7 = 7 /\ framed [p1; p2] = framed [p1; bad; p2].
Proof.
  assert (H : marshalWrite 7 [p1; p2] = marshalWrite 7 [p1; bad; p2])
    by (vm_compute; reflexivity).
  split; [exact H|].
  apply (marshalWrite_injective (codec := lineCodec) 7 7); [lia | lia | exact H].
Defined.

(** Eight bytes of 255 read as the largest shard ID. *)
Lemma unmarshalWrite_shardID_range_witness :
  unmarshalWrite [255; 255; 255; 255; 255; 255; 255; 255]
  = Ret (18446744073709551615, [], None)
  /\ 0 <= 18446744073709551615 < 2 ^ 64.
Proof.
  assert (H : unmarshalWrite [255; 255; 255; 255; 255; 255; 255; 255]
              = Ret (18446744073709551615, [], None))
    by (vm_compute; reflexivity).
  split; [exact H|].
  exact (unmarshalWrite_shardID_range (codec := lineCodec) _ _ _ _ H).
Defined.

(** Data node 2 of the cluster is found behind data node 1. *)
Lemma dataNode_first_match_witness :
  exists before d after,
    DataNodes cluster = before ++ d :: after
    /\ (forall x, In x before -> influxmeta.ID x <> 2)
    /\ influxmeta.ID d = 2
    /\ {| ID := 2; TCPHost := "b:8088"; Host := "b:8086" |}
       = MetaStore.addressOf d.
Proof.
  apply (MetaStoreFacts.dataNode_first_match cluster 2). reflexivity.
Defined.

(** The data node at b:8088, and none at the empty address. *)
Lemma dataNodeByTCPHost_spec_witness :
  MetaStore.dataNodeByTCPHost metaStore "" = None
  /\ exists ni, MetaStore.dataNodeByTCPHost metaStore "b:8088" = Some ni.
Proof.
  destruct (MetaStoreFacts.dataNodeByTCPHost_spec metaStore "b:8088")
    as [Hempty [_ Hfound]].
  split; [exact Hempty|]. apply Hfound; [discriminate|].
  eexists. split; [right; left; reflexivity | reflexivity].
Defined.

(** The leader m2:8089 is reached at m2:8091. *)
Lemma leaderHTTP_is_leader_host_witness :
  exists n, In n metas /\ influxmeta.Host n = "m2:8091"%string
            /\ influxmeta.TCPHost n = MetaStore.leader metaStore.
Proof.
  apply (proj2 (MetaStoreFacts.leaderHTTP_is_leader_host metaStore "m2:8091"));
    [reflexivity | discriminate].
Defined.

(** A raft that applies every command as it is: the update with an empty
    TCP address still answers node-not-found. *)
Lemma updateDataNode_empty_tcpHost_witness :
  MetaStore.updateDataNode (fun _ _ _ => Ret ([], None)) (fun s _ => (s, None))
    metaStore 1 "a:8086" ""
  = (Ret (Some ErrNodeNotFound), metaStore).
Proof.
  apply (proj1 (proj2 (MetaStoreFacts.updateDataNode_empty_tcpHost
                         (fun _ _ _ => Ret ([], None)) (fun s _ => (s, None))
                         metaStore 1 "a:8086")) []);
    reflexivity.
Defined.

(** Of four peers the one that resolves to the filter's host and port is
    left out. *)
Lemma filterAddr_spec_witness :
  MetaStore.filterAddr splitHostPort resolveIPAddr
    ["m2:1"; "localhost:1"; "m1:2"; "m3:1"]%string "m1:1"
  = (["m2:1"; "m1:2"; "m3:1"]%string, None)
  /\ ["m2:1"; "m1:2"; "m3:1"]%string
     = List.filter
         (fun a => negb (MetaStore.isSelf splitHostPort resolveIPAddr "m1:1" a))
         ["m2:1"; "localhost:1"; "m1:2"; "m3:1"]%string.
Proof.
  assert (H : MetaStore.filterAddr splitHostPort resolveIPAddr
                ["m2:1"; "localhost:1"; "m1:2"; "m3:1"]%string "m1:1"
              = (["m2:1"; "m1:2"; "m3:1"]%string, None))
    by (vm_compute; reflexivity).
  split; [exact H|].
  exact (proj1 (MetaStoreFacts.filterAddr_spec splitHostPort resolveIPAddr
                  _ _ _ None H)).
Defined.

(** Swapping the ends of 5, 6, 7. *)
Lemma Swap_exchanges_witness :
  exists t', Tasks.Swap [5; 6; 7] 0 2 = Ret t'
    /\ Tasks.index t' 2 = Ret 5 /\ Tasks.index t' 0 = Ret 7
    /\ Tasks.Swap t' 0 2 = Ret [5; 6; 7].
Proof.
  destruct (TasksFacts.Swap_exchanges [5; 6; 7] 0 2)
    as [t' [Hs [_ [Hj [Hi [_ Hback]]]]]];
    [vm_compute; split; [discriminate | reflexivity]
    | vm_compute; split; [discriminate | reflexivity] |].
  exists t'. repeat split; assumption.
Defined.

(** After the swap the first task is no longer the smaller one; index 3 is
    outside. *)
Lemma Less_after_Swap_witness :
  Tasks.Swap [5; 6; 7] 0 3 = Panic
  /\ exists t', Tasks.Swap [5; 6; 7] 0 2 = Ret t'
                /\ Tasks.Less t' 0 2 = Ret false.
Proof.
  destruct (TasksFacts.Less_after_Swap [5; 6; 7] 0 3) as [Hout _].
  destruct (TasksFacts.Less_after_Swap [5; 6; 7] 0 2) as [_ Hin].
  split.
  - apply Hout. right. right. right. vm_compute. discriminate.
  - destruct Hin as [t' [Hs Hl]];
      [vm_compute; split; [discriminate | reflexivity]
      | vm_compute; split; [discriminate | reflexivity] |].
    exists t'. split; [exact Hs | exact Hl].
Defined.

(** Close of the open processor of scenario 1. *)
Lemma Close_returns_queue_error_witness :
  exists n', Close (opened 1 [] []) = (Ret None, n')
    /\ done n' = None /\ wg n' = 0
    /\ Close n' = (Ret None, n').
Proof.
  edestruct (Close_returns_queue_error (opened 1 [] []))
    as [n' [Hc [Hd [Hw [_ [_ Hc2]]]]]];
    [by_running | by_running | by_running |].
  exists n'. repeat split; assumption.
Defined.

(** The directory of [blocked] is a file: Open fails and the processor is
    stuck. *)
Lemma Open_failure_half_open_witness :
  fst (Open blocked) = Some (ErrMkdirAll (Errorf "not a directory"))
  /\ Closed (snd (Open blocked)) = false
  /\ queue (snd (Open blocked)) = None
  /\ Open (snd (Open blocked)) = (None, snd (Open blocked)).
Proof.
  assert (H : fst (Open blocked) = Some (ErrMkdirAll (Errorf "not a directory")))
    by reflexivity.
  split; [exact H|].
  destruct (Open_failure_half_open blocked _ eq_refl H) as [Hc [Hq [_ [Ho _]]]].
  repeat split; assumption.
Defined.

(** Open of the processor of scenario 1. *)
Lemma Open_success_witness :
  fs_lookup (fs (opened 1 [] [])) "/hh/1" = Some Dir
  /\ exists q, queue (opened 1 [] []) = Some q
               /\ WriteDiskBytes (stats (opened 1 [] [])) = q_TotalBytes q.
Proof.
  destruct (Open_success (processor 1 [] []) eq_refl eq_refl)
    as [Hl [_ [q0 [q [_ [_ [Hq Hb]]]]]]].
  split; [exact Hl|]. exists q. split; [exact Hq | exact Hb].
Defined.

(** A queue of 16 bytes refuses the block of scenario 1; the request is
    counted. *)
Lemma WriteShard_append_error_witness :
  exists n', WriteShard tiny 7 [p1; p2] = (Ret (Some (Errorf "queue is full")), n')
    /\ WriteShardReq (stats n') = 1
    /\ WriteShardReqPoints (stats n') = 2.
Proof.
  edestruct (WriteShard_append_error tiny) with (shardID := 7)
    (points := [p1; p2]) as [n' [Hw [Hr [Hp _]]]];
    [by_running | by_running | by_running | by_running |].
  exists n'. split; [exact Hw|]. split; [exact Hr | exact Hp].
Defined.

(** The write of scenario 1. *)
Lemma WriteShard_success_witness :
  exists n', WriteShard (opened 1 [] []) 7 [p1; p2] = (Ret None, n')
    /\ WriteShardReq (stats n') = 2
    /\ WriteShardReqPoints (stats n') = 2.
Proof.
  edestruct (WriteShard_success (opened 1 [] [])) with (shardID := 7)
    (points := [p1; p2]) as [n' [Hw [_ [_ [Hr [Hp _]]]]]];
    [by_running | by_running | by_running |].
  exists n'. split; [exact Hw|]. split; [exact Hr | exact Hp].
Defined.

(** The metadata client refuses the connection. *)
Lemma SendWrite_metadata_error_witness :
  fst (SendWrite (written [] [refused])) = Ret (0, Some refused)
  /\ queue (snd (SendWrite (written [] [refused]))) = queue (written [] [refused]).
Proof.
  edestruct (SendWrite_metadata_error (written [] [refused])) with
    (fuel := O) (currInterval := 100 * ms)
    as [Hs [Hq _]]; [by_running |].
  split; [now rewrite Hs | exact Hq].
Defined.

(** The queue of the processor just opened is empty: EOF. *)
Lemma SendWrite_queue_error_witness :
  exists n', SendWrite (opened 1 [] []) = (Ret (0, Some EOF), n')
    /\ stats n' = stats (opened 1 [] []).
Proof.
  edestruct (SendWrite_queue_error (opened 1 [] []))
    as [n' [Hs [_ [_ [Hst _]]]]];
    [by_running | by_running | by_running |].
  exists n'. split; [exact Hs | exact Hst].
Defined.

(** The send of scenario 1. *)
Lemma SendWrite_success_witness :
  exists n', SendWrite (written [] []) = (Ret (24, None), n')
    /\ calls n'
       = calls (written [] [])
         ++ [CallDataNode 1; CallCurrent; CallWriteShard 7 1 [p1; p2];
             CallAdvance].
Proof.
  edestruct (SendWrite_success (written [] []))
    as [n' [Hs [_ [_ [_ [Hc _]]]]]];
    [by_running | by_running | by_running | by_running | by_running
    | by_running |].
  exists n'. split; [exact Hs | exact Hc].
Defined.

(** The shard writer reports the node gone: the block stays. *)
Lemma SendWrite_writer_sentinel_witness :
  exists n', SendWrite (written gone []) = (Ret (0, Some ErrNodeNotFound), n')
    /\ option_map empty (queue n') = Some false
    /\ fst (drain 1 (100 * ms) (written gone [])) = DrainReturn.
Proof.
  edestruct (SendWrite_writer_sentinel (written gone [])) with
    (fuel := O) (currInterval := 100 * ms)
    as [n' [Hs [Hq [_ [_ Hd]]]]];
    [by_running | by_running | by_running | by_running | by_running
    | by_running |].
  exists n'. split; [exact Hs|]. split; [now rewrite Hq | exact Hd].
Defined.

(** Scenario 1 with the codec the program is built with: the block is
    decoded, the parser rejects it, the shard writer is not called. *)
Lemma written_block_is_decoded_witness :
  exists n1 cs,
    WriteShard BinaryStub.opened 7 [BinaryStub.cpu; BinaryStub.mem]
    = (Ret None, n1)
    /\ (forall s o p, ~ In (CallWriteShard s o p) cs)
    /\ calls (snd (SendWrite n1))
       = CallAppend
           (BigEndian.bytes8 7
              ++ @framed BinaryStub.codec [BinaryStub.cpu; BinaryStub.mem])
         :: CallDataNode 1 :: CallCurrent :: cs
    /\ WriteNodeReqFail (stats (snd (SendWrite n1))) = 1.
Proof.
  edestruct (written_block_is_decoded BinaryStub.opened) with
    (shardID := 7) (points := [BinaryStub.cpu; BinaryStub.mem])
    as [n1 [cs [Hw [Hno H]]]];
    [ by_running | by_running | lia | by_running | by_running | by_running
    | by_running | by_running |].
  exists n1, cs. split; [exact Hw|]. split; [exact Hno|].
  change (snd (@ParsePoints BinaryStub.codec
                 (@framed BinaryStub.codec [BinaryStub.cpu; BinaryStub.mem])))
    with (Some (Errorf "unable to parse")) in H.
  destruct H as [Hc [_ Hf]]. split; [exact Hc | exact Hf].
Defined.

(** Scenario 3: the metadata client reports the node removed. *)
Lemma run_node_not_found_witness :
  exists n',
    run 1 [TickRetry; TickRetry; TickRetry] (written [] [ErrNodeNotFound])
    = (Returned, n')
    /\ wg n' = 0
    /\ queue n' = queue (written [] [ErrNodeNotFound]).
Proof.
  edestruct (run_node_not_found 0 [TickRetry; TickRetry]
               (written [] [ErrNodeNotFound]))
    as [n' [Hr [Hw [Hq _]]]];
    [by_running | by_running | by_running | by_running |].
  exists n'. split; [exact Hr|]. split; [exact Hw | exact Hq].
Defined.

(** One retry tick on the processor just opened: a ticker of 100ms. *)
Lemma run_retry_intervals_witness :
  retryDelays (calls (snd (run 10 [TickRetry] (opened 1 [] [])))) = [100 * ms]
  /\ (100 * ms = RetryInterval config \/ 100 * ms = RetryMaxInterval config).
Proof.
  assert (H : retryDelays (calls (snd (run 10 [TickRetry] (opened 1 [] []))))
              = [100 * ms]) by (vm_compute; reflexivity).
  split; [exact H|].
  apply (run_retry_intervals 10 [TickRetry] (opened 1 [] [])); [reflexivity|].
  rewrite H. left. reflexivity.
Defined.

(** Node 3 is not a member: its worker waits. *)
Lemma run_inactive_node_witness :
  exists n',
    run 1 [TickRetry] (snd (WriteShard (opened 3 [] []) 7 [p1; p2]))
    = (Waiting (100 * ms), n')
    /\ queue n' = queue (snd (WriteShard (opened 3 [] []) 7 [p1; p2])).
Proof.
  edestruct (run_inactive_node 0 (snd (WriteShard (opened 3 [] []) 7 [p1; p2])))
    as [n' [Hr [Hq _]]];
    [by_running | by_running | by_running | by_running |].
  exists n'. split; [exact Hr | exact Hq].
Defined.

(** A purge tick at time 0 on scenario 1. *)
Lemma run_purge_tick_witness :
  exists n',
    run 10 [TickPurge 0] (written [] []) = (Waiting (100 * ms), n')
    /\ calls n'
       = calls (written [] [])
         ++ [CallNewTicker (100 * ms); CallPurgeOlderThan (0 - MaxAge config)].
Proof.
  edestruct (run_purge_tick 10 [] 0 (written [] []))
    as [n' [Hr [_ [_ [Hc _]]]]];
    [by_running | by_running | by_running | by_running | by_running |].
  exists n'. split; [exact Hr | exact Hc].
Defined.

End MoreFacts.
